(** * helper_functions.py: corpus loader, secret loader, embedding invoker

    A shallow embedding of [src/helper_functions.py] and of the parts of
    the Python runtime it calls ([pathlib.Path.glob], [Path.stem], [open],
    [file.read], [json.load], [pd.DataFrame], subscripting), followed by
    the properties of the three functions.

    The runtime follows CPython 3.11 on a POSIX system.  Computations run
    in a state-and-exception monad: a raised exception leaves the state
    as it was at the raise, the way Python does. *)

From Stdlib Require Import ZArith Ascii String.
From Stdlib.Strings Require Import Byte.
From stdpp Require Import gmap strings list.

Set Warnings "-register-all".
Local Open Scope string_scope.

(** ** Python values, exceptions and the monad *)

Module Py.

(** A path is kept as its list of components ([PurePath._parts]). *)
Definition path := list string.

Inductive exn :=
| FileNotFoundError (file : path)
| NotADirectoryError (file : path)
| IsADirectoryError (file : path)
| PermissionError (file : path)
| UnicodeDecodeError (reason : string)
| JSONDecodeError (msg : string)
| KeyError (key : string)
| TypeError (msg : string)
| ValueError (msg : string)
| OtherError (cls msg : string).

Inductive outcome (A : Type) :=
| Return (a : A)
| Raise (e : exn).
Arguments Return {A} a.
Arguments Raise {A} e.

(** What [json.load] can produce.  A float is kept by its [repr]. *)
Inductive pyval :=
| PyNone
| PyBool (b : bool)
| PyInt (z : Z)
| PyFloat (repr : string)
| PyStr (s : string)
| PyList (items : list pyval)
| PyDict (d : gmap string pyval).

(** State-and-exception monad over a state [S]. *)
Definition M (S A : Type) : Type := S -> outcome A * S.

Definition ret {S A} (a : A) : M S A := fun s => (Return a, s).
Definition raise {S A} (e : exn) : M S A := fun s => (Raise e, s).
Definition lift {S A} (o : outcome A) : M S A := fun s => (o, s).
Definition bind {S A B} (m : M S A) (k : A -> M S B) : M S B :=
  fun s => match m s with
           | (Return a, s') => k a s'
           | (Raise e, s') => (Raise e, s')
           end.

(** [obj[key]] for a [str] key. *)
Definition getitem (obj : pyval) (key : string) : outcome pyval :=
  match obj with
  | PyDict d =>
      match d !! key with
      | Some v => Return v
      | None => Raise (KeyError key)
      end
  | PyList _ => Raise (TypeError "list indices must be integers or slices, not str")
  | PyStr _ => Raise (TypeError "string indices must be integers, not 'str'")
  | PyNone => Raise (TypeError "'NoneType' object is not subscriptable")
  | PyBool _ => Raise (TypeError "'bool' object is not subscriptable")
  | PyInt _ => Raise (TypeError "'int' object is not subscriptable")
  | PyFloat _ => Raise (TypeError "'float' object is not subscriptable")
  end.

End Py.
Import Py.

#[global] Instance M_ret {S} : MRet (M S) := fun A => @ret S A.
#[global] Instance M_bind {S} : MBind (M S) := fun A B k m => @bind S A B m k.

(** ** The platform: what the interpreter and its libraries supply *)

Record platform := {
  (** [flavour.compile_pattern(pat)] applied to an entry name. *)
  compile_pattern : string -> string -> bool;
  (** What [read()] on a text-mode file gives for the file's bytes:
      decoding in the locale's encoding and newline translation. *)
  text_decode : list byte -> outcome string;
  (** [json.loads]. *)
  json_loads : string -> outcome pyval
}.

(** ** Files *)

Module IO.

Inductive node :=
| RegularFile (readable : bool) (data : list byte)
| Directory (readable : bool) (entries : list string).

(** The file system and the table of open file objects (the bytes each
    one has still to deliver). *)
Record world := {
  files : gmap path node;
  handles : gmap nat (list byte)
}.

Abbreviation io := (M world).

Definition set_handles (f : gmap nat (list byte) -> gmap nat (list byte))
    (w : world) : world :=
  {| files := files w; handles := f (handles w) |}.

(** Whether the node found at a path is a regular file. *)
Definition is_regular (found : option node) : bool :=
  match found with
  | Some (RegularFile _ _) => true
  | _ => false
  end.

(** Whether one of the components that lead to a path, [prefix] or
    [prefix] extended by some but not all of [rest], is a regular file. *)
Fixpoint file_on_the_way (w : world) (prefix rest : path) : bool :=
  match rest with
  | [] => false
  | component :: rest' =>
      is_regular (files w !! prefix) ||
      file_on_the_way w (prefix ++ [component])%list rest'
  end.
Definition below_a_file (w : world) (file : path) : bool :=
  file_on_the_way w [] file.

(** The error of opening a path that has no node: [ENOTDIR] when a
    regular file stands where a directory should lead to it, [ENOENT]
    otherwise.  A node the world holds is taken to be reachable. *)
Definition no_such_file (w : world) (file : path) : exn :=
  if below_a_file w file then NotADirectoryError file
  else FileNotFoundError file.

(** [open(file, 'r')] *)
Definition open_r (file : path) : io nat := fun w =>
  match files w !! file with
  | None => (Raise (no_such_file w file), w)
  | Some (Directory true _) => (Raise (IsADirectoryError file), w)
  | Some (Directory false _) => (Raise (PermissionError file), w)
  | Some (RegularFile false _) => (Raise (PermissionError file), w)
  | Some (RegularFile true data) =>
      let h := fresh (dom (handles w)) in
      (Return h, set_handles (insert h data) w)
  end.

(** [file.read()] *)
Definition read (rt : platform) (file : nat) : io string := fun w =>
  match handles w !! file with
  | None => (Raise (ValueError "I/O operation on closed file."), w)
  | Some rest =>
      match text_decode rt rest with
      | Return s => (Return s, set_handles (insert file []) w)
      | Raise e => (Raise e, w)
      end
  end.

(** [file.close()] *)
Definition close (file : nat) : io unit := fun w =>
  (Return tt, set_handles (delete file) w).

(** [with open(file, 'r') as f: body]: the file is closed when the body
    is left, by normal completion, by [return] or by an exception. *)
Definition with_open {A} (file : path) (body : nat -> io A) : io A := fun w =>
  match open_r file w with
  | (Raise e, w1) => (Raise e, w1)
  | (Return f, w1) =>
      let '(r, w2) := body f w1 in
      (r, snd (close f w2))
  end.

(** [json.load(fp)] is [json.loads(fp.read())]. *)
Definition json_load (rt : platform) (fp : nat) : io pyval :=
  s ← read rt fp;
  lift (json_loads rt s).

(** [for x in xs: body], the loop's variables threaded as [acc]. *)
Fixpoint for_each {A St} (xs : list A) (acc : St) (body : St -> A -> io St)
    : io St :=
  match xs with
  | [] => ret acc
  | x :: xs' => acc' ← body acc x; for_each xs' acc' body
  end.

End IO.
Import IO.

(** ** pathlib *)

Module Pathlib.

(** [s.rfind(c)], -1 when [c] does not occur. *)
Fixpoint rfind_from (c : ascii) (s : string) (i last : Z) : Z :=
  match s with
  | EmptyString => last
  | String a s' => rfind_from c s' (i + 1) (if Ascii.eqb a c then i else last)
  end.
Definition rfind (c : ascii) (s : string) : Z := rfind_from c s 0 (-1).

(** [PurePath.name]: the last component. *)
Definition name (p : path) : string := List.last p "".

(** [PurePath.stem]: the name minus its last suffix. *)
Definition stem_of_name (name : string) : string :=
  let i := rfind "." name in
  if ((0 <? i) && (i <? Z.of_nat (String.length name) - 1))%Z
  then substring 0 (Z.to_nat i) name
  else name.
Definition stem (p : path) : string := stem_of_name (name p).

(** ['**' in pat] *)
Fixpoint has_double_star (pat : string) : bool :=
  match pat with
  | String "*" ((String "*" _) as rest) => true
  | String _ rest => has_double_star rest
  | EmptyString => false
  end.

(** ['/' in pat] *)
Fixpoint has_sep (pat : string) : bool :=
  match pat with
  | String "/" _ => true
  | String _ rest => has_sep rest
  | EmptyString => false
  end.

(** The names [_WildcardSelector] scans in [self]: none when [self] is
    not a directory ([select_from] returns an empty iterator) and none
    when listing it is denied (the [PermissionError] of [scandir] is
    swallowed by the selector). *)
Definition scandir_names (w : world) (self : path) : list string :=
  match files w !! self with
  | Some (Directory true entries) => entries
  | _ => []
  end.

(** [self.glob(pattern)] for a pattern of one component that holds a
    wildcard and is not ['**'] itself: the entries of [self] whose name
    the compiled pattern matches, in [scandir] order, of any kind.  A
    component with ['**'] inside is refused by [_make_selector]. *)
Definition glob (rt : platform) (self : path) (pattern : string)
    : io (list path) := fun w =>
  if has_double_star pattern
  then (Raise (ValueError "Invalid pattern: '**' can only be an entire path component"), w)
  else (Return (map (fun entry => (self ++ [entry])%list)
                    (filter (fun entry => compile_pattern rt pattern entry = true)
                            (scandir_names w self))), w).

End Pathlib.
Import Pathlib.

(** ** pandas *)

Module Pandas.

(** A frame of [str] columns: the labelled columns in order, and the
    length of its [RangeIndex]. *)
Record DataFrame := {
  columns : list (string * list string);
  index : nat
}.

(** [pd.DataFrame(data)] for a dict of lists: the columns must all have
    one length, which becomes the length of the index. *)
Definition pd_DataFrame (data : list (string * list string))
    : outcome DataFrame :=
  match data with
  | [] => Return {| columns := []; index := 0 |}
  | (_, values) :: others =>
      if forallb (fun c => length (snd c) =? length values)%nat others
      then Return {| columns := data; index := length values |}
      else Raise (ValueError "All arrays must be of the same length")
  end.

(** The dtypes a column of this module's frames can have. *)
Inductive dtype :=
| object_
| float64.

(** The dtype [pd.DataFrame] gives a column built from a list: a list of
    [str] values is kept as [object]; an empty list has no value to infer
    from and gets the default, [float64].  Frames are not changed after
    they are built, so the dtype of a column is read off its values. *)
Definition infer_dtype (values : list string) : dtype :=
  match values with
  | [] => float64
  | _ :: _ => object_
  end.

(** [df[label]] as a list, when the frame has that column. *)
Fixpoint assoc (label : string) (cols : list (string * list string))
    : option (list string) :=
  match cols with
  | [] => None
  | (l, values) :: rest => if String.eqb l label then Some values else assoc label rest
  end.
Definition column (df : DataFrame) (label : string) : option (list string) :=
  assoc label (columns df).

(** [df[label].dtype] *)
Definition dtype_of (df : DataFrame) (label : string) : option dtype :=
  infer_dtype <$> column df label.

End Pandas.
Import Pandas.

(** ** The API client *)

(** The keyword arguments of [embeddings.create]. *)
Record create_kwargs := {
  input : list string;
  model : string
}.

(** A client is an object with its own state [S]; its embedding
    operation answers with a response [R] or raises. *)
Record Embeddings (S R : Type) := {
  create : create_kwargs -> M S R
}.
Arguments create {S R} _ _ _.

Record OpenAI (S R : Type) := {
  embeddings : Embeddings S R
}.
Arguments embeddings {S R} _.

(** A client wrapped so that it records each call of its embedding
    operation before answering as the wrapped client does. *)
Definition recording {S R} (client : OpenAI S R)
    : OpenAI (S * list create_kwargs) R :=
  {| embeddings := {| create := fun kw '(s, calls) =>
       let '(r, s') := create (embeddings client) kw s in
       (r, (s', (calls ++ [kw])%list)) |} |}.

(** ** helper_functions.py *)

(** [load_data(data_dir, ext='txt')]: the two lists the loop appends to
    are its accumulator; a caller that leaves [ext] out passes ["txt"]. *)
Definition load_data (rt : platform) (data_dir : path) (ext : string)
    : io DataFrame :=
  let documents : list string := [] in
  let documents_ids : list string := [] in
  file_paths ← glob rt data_dir ("*." +:+ ext);
  '(documents, documents_ids) ←
    for_each file_paths (documents, documents_ids)
      (fun '(documents, documents_ids) file_path =>
         with_open file_path (fun file =>
           text ← read rt file;
           let documents := (documents ++ [text])%list in
           let documents_ids := (documents_ids ++ [stem file_path])%list in
           mret (documents, documents_ids)));
  lift (pd_DataFrame [("id", documents_ids); ("text", documents)]).

(** [get_openai_api_key(file_path)]: the subscript is evaluated inside
    the [with] block, before the file is closed. *)
Definition get_openai_api_key (rt : platform) (file_path : path) : io pyval :=
  with_open file_path (fun file =>
    document ← json_load rt file;
    lift (getitem document "secret_key")).

(** [embed_documents(documents, openai_client, embedding_model)] *)
Definition embed_documents {S R} (documents : list string)
    (openai_client : OpenAI S R) (embedding_model : string) : M S R :=
  create (embeddings openai_client)
         {| input := documents; model := embedding_model |}.

(** ** What the properties speak about *)

(** An extension that keeps ["*." ++ ext] a pattern of one component. *)
Definition plain_ext (ext : string) : bool :=
  negb (has_sep ext) && negb (has_double_star ext).

(** The entries of [data_dir] that the pattern of [ext] matches, and the
    others, both in directory order. *)
Definition matching (rt : platform) (w : world) (data_dir : path)
    (ext : string) : list string :=
  filter (fun entry => compile_pattern rt ("*." +:+ ext) entry = true)
         (scandir_names w data_dir).
Definition other_entries (rt : platform) (w : world) (data_dir : path)
    (ext : string) : list string :=
  filter (fun entry => compile_pattern rt ("*." +:+ ext) entry ≠ true)
         (scandir_names w data_dir).

(** The paths [glob] yields for the pattern of [ext]. *)
Definition matched_paths (rt : platform) (w : world) (data_dir : path)
    (ext : string) : list path :=
  map (fun entry => (data_dir ++ [entry])%list) (matching rt w data_dir ext).

(** The text of the file at [file]: what opening it for reading and
    reading it to the end gives. *)
Definition file_text (rt : platform) (w : world) (file : path)
    : outcome string :=
  match files w !! file with
  | None => Raise (no_such_file w file)
  | Some (Directory true _) => Raise (IsADirectoryError file)
  | Some (Directory false _) => Raise (PermissionError file)
  | Some (RegularFile false _) => Raise (PermissionError file)
  | Some (RegularFile true data) => text_decode rt data
  end.

(** The texts of a list of files read one after the other, up to the
    first that cannot be read. *)
Fixpoint read_all (rt : platform) (w : world) (file_paths : list path)
    : outcome (list string) :=
  match file_paths with
  | [] => Return []
  | file_path :: rest =>
      match file_text rt w file_path with
      | Raise e => Raise e
      | Return text =>
          match read_all rt w rest with
          | Raise e => Raise e
          | Return texts => Return (text :: texts)
          end
      end
  end.

(** The rows of a frame with the columns [id] and [text]. *)
Definition rows (df : DataFrame) : list (string * string) :=
  match column df "id", column df "text" with
  | Some ids, Some texts => zip ids texts
  | _, _ => []
  end.

(** The table of no documents. *)
Definition empty_table : DataFrame :=
  {| columns := [("id", []); ("text", [])]; index := 0 |}.

(** The file name with the suffix ["." ++ ext] taken off, as the
    specification words the identifier of a row. *)
Fixpoint strip_suffix (suffix name : string) : option string :=
  if String.eqb name suffix then Some ""
  else match name with
       | EmptyString => None
       | String c rest => String c <$> strip_suffix suffix rest
       end.
Definition name_without_ext (ext name : string) : option string :=
  strip_suffix ("." +:+ ext) name.

(** ['.' in ext] *)
Fixpoint has_dot (ext : string) : bool :=
  match ext with
  | String "." _ => true
  | String _ rest => has_dot rest
  | EmptyString => false
  end.

(** ** A platform to run the functions on

    The theorems hold for every platform.  The one below serves the
    examples: it matches names as [fnmatch] does for patterns without a
    bracket expression, decodes 7-bit text, and knows the JSON documents
    it is given. *)

(** [fnmatch] for the patterns without a bracket expression: ['*']
    matches any run of characters, ['?'] any one, all else itself. *)
Fixpoint wildcard (pat : string) (s : string) : bool :=
  match pat with
  | EmptyString => match s with EmptyString => true | _ => false end
  | String "*" pat' =>
      (fix star (s : string) : bool :=
         wildcard pat' s ||
         match s with
         | EmptyString => false
         | String _ s' => star s'
         end) s
  | String "?" pat' =>
      match s with
      | EmptyString => false
      | String _ s' => wildcard pat' s'
      end
  | String c pat' =>
      match s with
      | EmptyString => false
      | String a s' => Ascii.eqb a c && wildcard pat' s'
      end
  end.

(** Universal newlines: ["\r\n"] and a lone ["\r"] are read as ["\n"]. *)
Fixpoint universal_newlines (s : string) : string :=
  match s with
  | EmptyString => EmptyString
  | String "013" rest =>
      match rest with
      | String "010" _ => universal_newlines rest
      | _ => String "010" (universal_newlines rest)
      end
  | String c rest => String c (universal_newlines rest)
  end.

(** Strict 7-bit decoding. *)
Fixpoint ascii_strict (data : list byte) : outcome string :=
  match data with
  | [] => Return ""
  | b :: rest =>
      if (Byte.to_N b <? 128)%N
      then match ascii_strict rest with
           | Return s => Return (String (ascii_of_byte b) s)
           | Raise e => Raise e
           end
      else Raise (UnicodeDecodeError "ordinal not in range(128)")
  end.
Definition ascii_decode (data : list byte) : outcome string :=
  match ascii_strict data with
  | Return s => Return (universal_newlines s)
  | Raise e => Raise e
  end.

(** A decoder given by its graph on finitely many documents. *)
Fixpoint loads_of (docs : list (string * pyval)) (s : string) : outcome pyval :=
  match docs with
  | [] => Raise (JSONDecodeError "Expecting value")
  | (text, v) :: rest => if String.eqb text s then Return v else loads_of rest s
  end.

Definition posix (docs : list (string * pyval)) : platform :=
  {| compile_pattern := wildcard;
     text_decode := ascii_decode;
     json_loads := loads_of docs |}.

Definition bytes_of (s : string) : list byte := list_byte_of_string s.

(** The quotation mark, and a JSON string literal. *)
Definition dquote : string := String "034" "".
Definition quoted (s : string) : string := dquote +:+ s +:+ dquote.

(** The texts of three JSON documents. *)
Definition secret_json : string :=
  "{" +:+ quoted "secret_key" +:+ ": " +:+ quoted "abc123" +:+ "}".
Definition other_json : string :=
  "{" +:+ quoted "api_key" +:+ ": " +:+ quoted "abc123" +:+ "}".
Definition array_json : string :=
  "[" +:+ quoted "abc123" +:+ "]".

Definition json_docs : list (string * pyval) :=
  [ (secret_json, PyDict {[ "secret_key" := PyStr "abc123" ]});
    (other_json, PyDict {[ "api_key" := PyStr "abc123" ]});
    (array_json, PyList [PyStr "abc123"]) ].

(** A small file system: a corpus directory with two text files, an
    archive and a note; a directory listing an entry that is gone; a
    directory with a file that is not 7-bit text; three JSON files and
    one that is not JSON. *)
Definition sample_world : world :=
  {| files := list_to_map [
       (["data"], Directory true ["b.txt"; "a.tar.gz"; "c.md"; "d.txt"]);
       (["data"; "b.txt"], RegularFile true (bytes_of "bee"));
       (["data"; "a.tar.gz"], RegularFile true (bytes_of "archive"));
       (["data"; "c.md"], RegularFile true (bytes_of "# c"));
       (["data"; "d.txt"], RegularFile true (bytes_of "dee"));
       (["stale"], Directory true ["one.txt"; "gone.txt"; "two.txt"]);
       (["stale"; "one.txt"], RegularFile true (bytes_of "1"));
       (["stale"; "two.txt"], RegularFile true (bytes_of "2"));
       (["raw"], Directory true ["blob.txt"]);
       (["raw"; "blob.txt"], RegularFile true [x68; xff]%byte);
       (["secrets.json"], RegularFile true (bytes_of secret_json));
       (["other.json"], RegularFile true (bytes_of other_json));
       (["array.json"], RegularFile true (bytes_of array_json));
       (["broken.json"], RegularFile true (bytes_of "{"))
     ];
     handles := ∅ |}.

(** A client that answers every call with the number of documents it was
    given, counts its calls in its state, and refuses an empty model. *)
Definition counting_client : OpenAI nat nat :=
  {| embeddings := {| create := fun kw calls =>
       (if String.eqb (model kw) ""
        then Raise (OtherError "BadRequestError" "you must provide a model parameter")
        else Return (length (input kw)), S calls) |} |}.

(** The row that [load_data] makes of a readable entry: its stem and
    its text. *)
Definition row_of (rt : platform) (w : world) (data_dir : path)
    (entry : string) : string * string :=
  (stem_of_name entry,
   match file_text rt w (data_dir ++ [entry])%list with
   | Return text => text
   | Raise _ => ""
   end).

(** [pathlib._is_wildcard_pattern]: ['*'], ['?'] or ['['] occurs. *)
Fixpoint has_magic (pat : string) : bool :=
  match pat with
  | String "*" _ => true
  | String "?" _ => true
  | String "[" _ => true
  | String _ rest => has_magic rest
  | EmptyString => false
  end.

(** A world like [w] whose directory [data_dir] lists [entries]. *)
Definition relisted (w : world) (data_dir : path) (entries : list string)
    : world :=
  {| files := <[data_dir := Directory true entries]> (files w);
     handles := handles w |}.

(** A directory with a dot file, a name ending in a dot and two names
    that share a stem. *)
Definition dotted_world : world :=
  {| files := list_to_map [
       (["dots"], Directory true [".txt"; "trail."; ".txt.txt"; "plain.txt"]);
       (["dots"; ".txt"], RegularFile true (bytes_of "hidden"));
       (["dots"; "trail."], RegularFile true (bytes_of "dot"));
       (["dots"; ".txt.txt"], RegularFile true (bytes_of "twice"));
       (["dots"; "plain.txt"], RegularFile true (bytes_of "plain"))
     ];
     handles := ∅ |}.

(** * Properties *)

(** ** Opening, reading and closing *)

Section Files.
Context (rt : platform).

Lemma world_eta (w : world) :
  {| files := files w; handles := handles w |} = w.
Proof. by destruct w. Qed.

Lemma fresh_handle_unused (w : world) :
  handles w !! fresh (dom (handles w)) = None.
Proof. apply not_elem_of_dom, is_fresh. Qed.

(** Closing the handle that [open_r] gave restores the table of open
    files, whatever was read through the handle in between. *)
Lemma close_after_open (w : world) (data rest : list byte) :
  let h := fresh (dom (handles w)) in
  set_handles (delete h) (set_handles (insert h rest)
    (set_handles (insert h data) w)) = w
  ∧ set_handles (delete h) (set_handles (insert h data) w) = w.
Proof.
  intros h. pose proof (fresh_handle_unused w) as Hh. fold h in Hh.
  unfold set_handles; simpl. split.
  - rewrite insert_insert_eq, delete_insert_id by done. apply world_eta.
  - rewrite delete_insert_id by done. apply world_eta.
Qed.

(** Inside the block the file is open: [open_r] on a readable file adds
    a handle that was not in the table. *)
Lemma open_r_adds_handle (file : path) (data : list byte) (w : world) :
  files w !! file = Some (RegularFile true data) →
  ∃ h, open_r file w = (Return h, set_handles (insert h data) w) ∧
       handles w !! h = None ∧
       handles (set_handles (insert h data) w) !! h = Some data.
Proof.
  intros Hfile. exists (fresh (dom (handles w))). unfold open_r.
  rewrite Hfile. split; [done |]. split; [apply fresh_handle_unused |].
  simpl. apply lookup_insert_eq.
Qed.

(** A [with open] block that reads the whole file and then computes
    without touching the world: its result is that computation on the
    file's text, and the world is as before. *)
Lemma with_open_read {A} (file : path) (k : string -> outcome A) (w : world) :
  with_open file (fun f => text ← read rt f; lift (k text)) w =
  (match file_text rt w file with
   | Return text => k text
   | Raise e => Raise e
   end, w).
Proof.
  unfold with_open, open_r, file_text.
  destruct (files w !! file) as [[[] data | [] entries] |]; try done.
  unfold mbind, M_bind, bind, read; simpl.
  rewrite lookup_insert_eq.
  destruct (close_after_open w data []) as [H1 H2].
  destruct (text_decode rt data) as [text | e]; simpl.
  - unfold lift. by rewrite H1.
  - by rewrite H2.
Qed.

End Files.

(** ** The loop of [load_data] *)

Section Loader.
Context (rt : platform).

(** Loop invariant, for a loop body that reads the file it is given and
    appends its text to [documents] and its stem to [documents_ids]:
    after the files read so far the two lists have grown in step. *)
Lemma for_each_spec
    (body : list string * list string → path → io (list string * list string))
    (Hbody : ∀ documents documents_ids file_path w,
       body (documents, documents_ids) file_path w =
       (match file_text rt w file_path with
        | Return text =>
            Return ((documents ++ [text])%list,
                    (documents_ids ++ [stem file_path])%list)
        | Raise e => Raise e
        end, w))
    file_paths documents documents_ids w :
  for_each file_paths (documents, documents_ids) body w =
  (match read_all rt w file_paths with
   | Return texts =>
       Return ((documents ++ texts)%list,
               (documents_ids ++ map stem file_paths)%list)
   | Raise e => Raise e
   end, w).
Proof.
  revert documents documents_ids.
  induction file_paths as [| file_path rest IH]; intros documents documents_ids.
  - simpl. by rewrite !app_nil_r.
  - cbn [for_each read_all]. unfold mbind, M_bind, bind.
    rewrite Hbody.
    destruct (file_text rt w file_path) as [text | e]; [| done].
    rewrite IH.
    destruct (read_all rt w rest) as [texts | e]; [| done].
    cbn [map]. by rewrite <- !app_assoc.
Qed.

Lemma read_all_length w file_paths texts :
  read_all rt w file_paths = Return texts → length texts = length file_paths.
Proof.
  revert texts. induction file_paths as [| file_path rest IH]; intros texts; simpl.
  - by intros [= <-].
  - destruct (file_text rt w file_path); [| done].
    destruct (read_all rt w rest) as [ts |]; [| done].
    intros [= <-]. simpl. f_equal. by apply IH.
Qed.

(** [load_data] in closed form. *)
Lemma load_data_spec data_dir ext w :
  load_data rt data_dir ext w =
  (if has_double_star ("*." +:+ ext)
   then Raise (ValueError "Invalid pattern: '**' can only be an entire path component")
   else match read_all rt w (matched_paths rt w data_dir ext) with
        | Return texts =>
            Return {| columns := [("id", map stem (matched_paths rt w data_dir ext));
                                  ("text", texts)];
                      index := length (matching rt w data_dir ext) |}
        | Raise e => Raise e
        end, w).
Proof.
  unfold load_data, glob. unfold mbind at 1. unfold M_bind at 1. unfold bind.
  destruct (has_double_star ("*." +:+ ext)); [done |].
  fold (matching rt w data_dir ext). fold (matched_paths rt w data_dir ext).
  unfold mbind at 1. unfold M_bind at 1. unfold bind.
  rewrite for_each_spec.
  2:{ intros documents documents_ids file_path w'.
      exact (with_open_read rt file_path
               (fun text => Return ((documents ++ [text])%list,
                                    (documents_ids ++ [stem file_path])%list)) w'). }
  destruct (read_all rt w (matched_paths rt w data_dir ext)) as [texts | e] eqn:Hall;
    [| done].
  apply read_all_length in Hall.
  unfold lift, pd_DataFrame. cbn [forallb snd app].
  unfold matched_paths in *. rewrite !length_map in *.
  rewrite Hall, Nat.eqb_refl. done.
Qed.

End Loader.

(** ** Names, stems and suffixes *)

Lemma name_child (data_dir : path) (entry : string) :
  name (data_dir ++ [entry])%list = entry.
Proof. unfold name. apply last_last. Qed.

Lemma stem_child (data_dir : path) (entry : string) :
  stem (data_dir ++ [entry])%list = stem_of_name entry.
Proof. unfold stem. by rewrite name_child. Qed.

Lemma rfind_from_app (c : ascii) (s1 s2 : string) (i last : Z) :
  rfind_from c (s1 +:+ s2) i last =
  rfind_from c s2 (i + Z.of_nat (String.length s1)) (rfind_from c s1 i last).
Proof.
  revert i last. induction s1 as [| a s1 IH]; intros i last; simpl.
  - f_equal. lia.
  - rewrite IH. f_equal. lia.
Qed.

Lemma rfind_from_no_dot (s : string) (i last : Z) :
  has_dot s = false → rfind_from "." s i last = last.
Proof.
  revert i last. induction s as [| a s IH]; intros i last Hs; [done |].
  assert (a ≠ "."%char ∧ has_dot s = false) as [Hne Hs'].
  { destruct a as [[] [] [] [] [] [] [] []]; simpl in Hs; try done. }
  simpl. destruct (Ascii.eqb_spec a ".") as [-> | _]; [done |]. by apply IH.
Qed.

Lemma substring_prefix (base rest : string) :
  substring 0 (String.length base) (base +:+ rest) = base.
Proof.
  induction base as [| a base IH]; simpl.
  - by destruct rest.
  - by rewrite IH.
Qed.

Lemma length_append (s1 s2 : string) :
  String.length (s1 +:+ s2) = (String.length s1 + String.length s2)%nat.
Proof. induction s1 as [| a s1 IH]; simpl; [done | by rewrite IH]. Qed.

(** For a name [base.ext] with a non-empty [base] and a non-empty [ext]
    without a dot, the stem is [base]. *)
Lemma stem_of_name_ext (base ext : string) :
  base ≠ "" → ext ≠ "" → has_dot ext = false →
  stem_of_name (base +:+ "." +:+ ext) = base.
Proof.
  intros Hbase Hext Hdot. unfold stem_of_name, rfind.
  change ("." +:+ ext) with (String "." ext).
  rewrite rfind_from_app. cbn [rfind_from]. rewrite Ascii.eqb_refl.
  rewrite rfind_from_no_dot by done.
  rewrite length_append. cbn [String.length].
  assert (0 < String.length base)%nat by (destruct base; [done | simpl; lia]).
  assert (0 < String.length ext)%nat by (destruct ext; [done | simpl; lia]).
  replace (0 <? 0 + Z.of_nat (String.length base))%Z with true
    by (symmetry; apply Z.ltb_lt; lia).
  replace (0 + Z.of_nat (String.length base) <?
           Z.of_nat (String.length base + S (String.length ext)) - 1)%Z with true
    by (symmetry; apply Z.ltb_lt; lia).
  cbn [andb]. rewrite Z.add_0_l, Nat2Z.id. apply substring_prefix.
Qed.

Lemma strip_suffix_Some (suffix name base : string) :
  strip_suffix suffix name = Some base → name = base +:+ suffix.
Proof.
  revert base. induction name as [| c rest IH]; intros base; cbn [strip_suffix].
  - destruct (String.eqb_spec "" suffix) as [<- | _]; [by intros [= <-] | done].
  - destruct (String.eqb_spec (String c rest) suffix) as [<- | _];
      [by intros [= <-] |].
    destruct (strip_suffix suffix rest) as [b |] eqn:Hb; [| done].
    intros [= <-]. change (String c b +:+ suffix) with (String c (b +:+ suffix)).
    f_equal. by apply IH.
Qed.

(** ** Reading the matched files *)

Section Rows.
Context (rt : platform) (w : world).

Lemma read_all_Forall2 file_paths texts :
  read_all rt w file_paths = Return texts →
  Forall2 (fun file_path text => file_text rt w file_path = Return text)
          file_paths texts.
Proof.
  revert texts. induction file_paths as [| file_path rest IH]; intros texts; simpl.
  - intros [= <-]. constructor.
  - destruct (file_text rt w file_path) as [text |] eqn:Htext; [| done].
    destruct (read_all rt w rest) as [ts |]; [| done].
    intros [= <-]. constructor; [done | by apply IH].
Qed.

Lemma read_all_Return file_paths :
  Forall (fun file_path => ∃ text, file_text rt w file_path = Return text)
         file_paths →
  ∃ texts, read_all rt w file_paths = Return texts.
Proof.
  induction 1 as [| file_path rest [text Htext] _ [texts IH]]; simpl.
  - by eexists.
  - rewrite Htext, IH. by eexists.
Qed.

(** The first file that cannot be read decides the result. *)
Lemma read_all_first_error before file_path after e :
  Forall (fun p => ∃ text, file_text rt w p = Return text) before →
  file_text rt w file_path = Raise e →
  read_all rt w (before ++ file_path :: after) = Raise e.
Proof.
  intros Hbefore Hfile.
  induction Hbefore as [| p rest [text Htext] _ IH]; simpl.
  - by rewrite Hfile.
  - by rewrite Htext, IH.
Qed.

Lemma rows_of_columns ids texts n :
  rows {| columns := [("id", ids); ("text", texts)]; index := n |} = zip ids texts.
Proof. reflexivity. Qed.

(** Each row pairs the stem and the text of one matched entry, in the
    order of the entries. *)
Lemma rows_of_matching data_dir (entries : list string) texts :
  Forall2 (fun file_path text => file_text rt w file_path = Return text)
          (map (fun entry => (data_dir ++ [entry])%list) entries) texts →
  Forall2 (fun entry row =>
             row.1 = stem_of_name entry ∧
             file_text rt w (data_dir ++ [entry])%list = Return row.2)
          entries
          (zip (map stem (map (fun entry => (data_dir ++ [entry])%list) entries))
               texts).
Proof.
  revert texts. induction entries as [| entry rest IH]; intros texts Hall;
    inversion Hall; subst; simpl; constructor.
  - split; [apply stem_child | done].
  - by apply IH.
Qed.

Lemma plain_ext_pattern ext :
  plain_ext ext = true → has_double_star ("*." +:+ ext) = false.
Proof.
  unfold plain_ext. intros [_ Hstar%negb_true_iff]%andb_true_iff.
  change ("*." +:+ ext) with (String "*" (String "." ext)).
  cbn [has_double_star]. done.
Qed.

(** What a returned table is made of. *)
Lemma load_data_Return data_dir ext w' df :
  load_data rt data_dir ext w = (Return df, w') →
  w' = w ∧
  ∃ texts,
    read_all rt w (matched_paths rt w data_dir ext) = Return texts ∧
    df = {| columns := [("id", map stem (matched_paths rt w data_dir ext));
                        ("text", texts)];
            index := length (matching rt w data_dir ext) |}.
Proof.
  rewrite load_data_spec.
  destruct (has_double_star ("*." +:+ ext)); [done |].
  destruct (read_all rt w (matched_paths rt w data_dir ext)) as [texts |];
    [| done].
  intros [= <- <-]. eauto.
Qed.

(** With nothing matched the loop does not run. *)
Lemma load_data_no_match data_dir ext :
  plain_ext ext = true →
  matching rt w data_dir ext = [] →
  load_data rt data_dir ext w = (Return empty_table, w).
Proof.
  intros Hext Hnone.
  rewrite load_data_spec, plain_ext_pattern by done.
  unfold matched_paths. rewrite Hnone. reflexivity.
Qed.

Lemma filter_split_length {A} (P : A → Prop) `{!∀ x, Decision (P x)}
    (l : list A) :
  (length (filter P l) + length (filter (fun x => ¬ P x) l))%nat = length l.
Proof.
  induction l as [| x l IH]; [done |].
  rewrite !filter_cons. destruct (decide (P x)); destruct (decide (¬ P x));
    simpl; try lia; tauto.
Qed.

End Rows.

Lemma Forall2_with_left {A B} (P : A → Prop) (R : A → B → Prop) l k :
  Forall P l → Forall2 R l k → Forall2 (fun a b => P a ∧ R a b) l k.
Proof.
  intros HP HR. induction HR as [| a b l k HR1 _ IH]; constructor.
  - split; [by inversion HP | done].
  - apply IH. by inversion HP.
Qed.

(** ** The corpus loader *)

(** C1: in a directory where [N] entries match the pattern of the
    extension and [M] do not, and every matching entry is a readable text
    file, [load_data] returns a table of exactly [N] rows, one per
    matching entry in directory order, and no row comes from one of the
    [M] others. *)
Theorem load_data_one_row_per_matching_file
    (rt : platform) (w : world) (data_dir : path) (ext : string) (N M : nat) :
  plain_ext ext = true →
  length (matching rt w data_dir ext) = N →
  length (other_entries rt w data_dir ext) = M →
  Forall (fun entry => ∃ text, file_text rt w (data_dir ++ [entry])%list = Return text)
         (matching rt w data_dir ext) →
  ∃ df,
    load_data rt data_dir ext w = (Return df, w) ∧
    index df = N ∧
    length (rows df) = N ∧
    (N + M)%nat = length (scandir_names w data_dir) ∧
    Forall2 (fun entry row =>
               compile_pattern rt ("*." +:+ ext) entry = true ∧
               row.1 = stem_of_name entry ∧
               file_text rt w (data_dir ++ [entry])%list = Return row.2)
            (matching rt w data_dir ext) (rows df) ∧
    Forall (fun entry => entry ∉ matching rt w data_dir ext)
           (other_entries rt w data_dir ext).
Proof.
  intros Hext HN HM Hreadable.
  destruct (read_all_Return rt w (matched_paths rt w data_dir ext)) as [texts Hall].
  { unfold matched_paths. by apply Forall_fmap. }
  eexists. split; [| split; [| split; [| split; [| split]]]].
  - rewrite load_data_spec, plain_ext_pattern, Hall by done. reflexivity.
  - done.
  - rewrite rows_of_columns, length_zip, length_map.
    rewrite (read_all_length _ _ _ _ Hall). unfold matched_paths.
    rewrite length_map. lia.
  - subst N M. apply filter_split_length.
  - rewrite rows_of_columns.
    apply read_all_Forall2, rows_of_matching in Hall.
    apply Forall2_with_left; [| exact Hall].
    apply Forall_forall. intros entry Hin.
    by apply list_elem_of_filter in Hin as [? _].
  - apply Forall_forall. intros entry Hin Hin'.
    apply list_elem_of_filter in Hin as [Hno _].
    apply list_elem_of_filter in Hin' as [Hyes _]. done.
Qed.

Lemma load_data_one_row_per_matching_file_witness :
  plain_ext "txt" = true ∧
  ∃ df, load_data (posix []) ["data"] "txt" sample_world = (Return df, sample_world) ∧
        index df = 2 ∧ length (rows df) = 2.
Proof.
  split; [reflexivity |].
  destruct (load_data_one_row_per_matching_file
              (posix []) sample_world ["data"] "txt" 2 2)
    as (df & Hrun & Hindex & Hrows & _).
  - reflexivity.
  - vm_compute; reflexivity.
  - vm_compute; reflexivity.
  - assert (matching (posix []) sample_world ["data"] "txt" = ["b.txt"; "d.txt"])
      as -> by (vm_compute; reflexivity).
    repeat constructor.
    + exists "bee". vm_compute; reflexivity.
    + exists "dee". vm_compute; reflexivity.
  - exists df. auto.
Defined.

(** C2, as the specification words it, does not hold: with the extension
    [tar.gz] the file [a.tar.gz] gets the identifier [a.tar], not the name
    with [.tar.gz] taken off. *)
Lemma load_data_id_keeps_inner_suffix :
  ¬ (∀ (rt : platform) (w : world) (data_dir : path) (ext : string) (df : DataFrame),
       plain_ext ext = true →
       load_data rt data_dir ext w = (Return df, w) →
       Forall2 (fun entry row =>
                  name_without_ext ext entry = Some row.1 ∧
                  file_text rt w (data_dir ++ [entry])%list = Return row.2)
               (matching rt w data_dir ext) (rows df)).
Proof.
  intros Hclaim.
  specialize (Hclaim (posix []) sample_world ["data"] "tar.gz"
                {| columns := [("id", ["a.tar"]); ("text", ["archive"])];
                   index := 1 |} eq_refl).
  assert (matching (posix []) sample_world ["data"] "tar.gz" = ["a.tar.gz"])
    as Hm by (vm_compute; reflexivity).
  rewrite Hm in Hclaim.
  assert (Hrun : load_data (posix []) ["data"] "tar.gz" sample_world =
                 (Return {| columns := [("id", ["a.tar"]); ("text", ["archive"])];
                            index := 1 |}, sample_world))
    by (vm_compute; reflexivity).
  specialize (Hclaim Hrun).
  inversion Hclaim as [| ? ? ? ? [Hid _] _]; subst.
  vm_compute in Hid. discriminate Hid.
Qed.

(** C2, amended: in every row of a returned table the [id] is the stem of
    the matched entry's name (the name minus its last suffix only) and the
    [text] is the decoded content of that entry's file; the stem is the
    name with [.ext] taken off whenever [ext] is non-empty and has no dot
    and something non-empty precedes [.ext] in the name. *)
Theorem load_data_rows_stem_and_text
    (rt : platform) (w w' : world) (data_dir : path) (ext : string)
    (df : DataFrame) :
  plain_ext ext = true →
  load_data rt data_dir ext w = (Return df, w') →
  Forall2 (fun entry row =>
             row.1 = stem_of_name entry ∧
             file_text rt w (data_dir ++ [entry])%list = Return row.2 ∧
             (∀ base, ext ≠ "" → has_dot ext = false → base ≠ "" →
                      name_without_ext ext entry = Some base → row.1 = base))
          (matching rt w data_dir ext) (rows df).
Proof.
  intros _ (_ & texts & Hall & ->)%load_data_Return.
  rewrite rows_of_columns.
  apply read_all_Forall2, rows_of_matching in Hall.
  eapply Forall2_impl; [exact Hall |].
  intros entry row [Hid Htext]. split; [done | split; [done |]].
  intros base Hext Hdot Hbase Hstrip%strip_suffix_Some.
  rewrite Hid, Hstrip. by apply stem_of_name_ext.
Qed.

Lemma load_data_rows_stem_and_text_witness :
  Forall2 (fun entry row =>
             row.1 = stem_of_name entry ∧
             file_text (posix []) sample_world (["data"] ++ [entry])%list = Return row.2 ∧
             (∀ base, "tar.gz" ≠ "" → has_dot "tar.gz" = false → base ≠ "" →
                      name_without_ext "tar.gz" entry = Some base → row.1 = base))
          (matching (posix []) sample_world ["data"] "tar.gz")
          (rows {| columns := [("id", ["a.tar"]); ("text", ["archive"])];
                   index := 1 |}).
Proof.
  apply (load_data_rows_stem_and_text (posix []) sample_world sample_world
           ["data"] "tar.gz").
  - reflexivity.
  - vm_compute; reflexivity.
Defined.

(** A table with rows has [object] columns: the dtype of string values. *)
Lemma load_data_rows_object_dtype
    (rt : platform) (w w' : world) (data_dir : path) (ext : string)
    (df : DataFrame) :
  load_data rt data_dir ext w = (Return df, w') →
  matching rt w data_dir ext ≠ [] →
  dtype_of df "id" = Some object_ ∧ dtype_of df "text" = Some object_.
Proof.
  intros (_ & texts & Hall%read_all_length & ->)%load_data_Return Hsome.
  unfold matched_paths in *. rewrite length_map in Hall.
  destruct (matching rt w data_dir ext) as [| entry rest]; [done |].
  by destruct texts.
Qed.

(** C6, as the specification words it, does not hold: the columns of the
    table of no documents do not have the dtype of string columns. *)
Lemma load_data_empty_columns_not_object :
  ¬ (∀ (rt : platform) (w : world) (data_dir : path) (ext : string),
       plain_ext ext = true →
       matching rt w data_dir ext = [] →
       ∃ df,
         load_data rt data_dir ext w = (Return df, w) ∧
         index df = 0 ∧
         column df "id" = Some [] ∧
         column df "text" = Some [] ∧
         dtype_of df "id" = Some object_ ∧
         dtype_of df "text" = Some object_).
Proof.
  intros Hclaim.
  destruct (Hclaim (posix []) sample_world ["data"] "csv" eq_refl)
    as (df & Hrun & _ & _ & _ & Hdtype & _).
  - vm_compute; reflexivity.
  - assert (Hempty : load_data (posix []) ["data"] "csv" sample_world =
                     (Return empty_table, sample_world))
      by (vm_compute; reflexivity).
    rewrite Hempty in Hrun. injection Hrun as <-.
    vm_compute in Hdtype. discriminate Hdtype.
Qed.

(** C6, amended: when no entry of the directory matches the pattern of
    the extension, [load_data] returns the table with the columns [id]
    and [text], both empty, and no rows; the two columns have the dtype
    [float64], the default of a column built from an empty list, not the
    [object] dtype of string columns. *)
Theorem load_data_no_match_empty_table
    (rt : platform) (w : world) (data_dir : path) (ext : string) :
  plain_ext ext = true →
  matching rt w data_dir ext = [] →
  load_data rt data_dir ext w = (Return empty_table, w) ∧
  index empty_table = 0 ∧
  column empty_table "id" = Some [] ∧
  column empty_table "text" = Some [] ∧
  rows empty_table = [] ∧
  dtype_of empty_table "id" = Some float64 ∧
  dtype_of empty_table "text" = Some float64.
Proof.
  intros Hext Hnone. split; [| done]. by apply load_data_no_match.
Qed.

Lemma load_data_no_match_empty_table_witness :
  load_data (posix []) ["data"] "csv" sample_world = (Return empty_table, sample_world).
Proof.
  apply (load_data_no_match_empty_table (posix []) sample_world ["data"] "csv").
  - reflexivity.
  - vm_compute; reflexivity.
Defined.

(** C9: in a returned table the [id] and [text] columns have the same
    length, and position [i] of both comes from the [i]-th path that
    [glob] yielded: the [id] is its stem and the [text] its content. *)
Theorem load_data_columns_aligned
    (rt : platform) (w w' : world) (data_dir : path) (ext : string)
    (df : DataFrame) :
  plain_ext ext = true →
  load_data rt data_dir ext w = (Return df, w') →
  ∃ ids texts,
    column df "id" = Some ids ∧
    column df "text" = Some texts ∧
    length ids = length texts ∧
    length ids = length (matched_paths rt w data_dir ext) ∧
    ∀ i file_path,
      matched_paths rt w data_dir ext !! i = Some file_path →
      ids !! i = Some (stem file_path) ∧
      ∃ text, texts !! i = Some text ∧ file_text rt w file_path = Return text.
Proof.
  intros _ (_ & texts & Hall & ->)%load_data_Return.
  exists (map stem (matched_paths rt w data_dir ext)), texts.
  pose proof (read_all_length _ _ _ _ Hall) as Hlen.
  apply read_all_Forall2 in Hall.
  split; [done | split; [done | split; [| split]]].
  - by rewrite length_map.
  - by rewrite length_map.
  - intros i file_path Hi. split.
    + by rewrite list_lookup_fmap, Hi.
    + destruct (Forall2_lookup_l _ _ _ _ _ Hall Hi) as (text & ? & ?). eauto.
Qed.

Lemma load_data_columns_aligned_witness :
  ∃ ids texts,
    ids = ["b"; "d"] ∧ texts = ["bee"; "dee"] ∧ length ids = length texts.
Proof.
  destruct (load_data_columns_aligned (posix []) sample_world sample_world
              ["data"] "txt"
              {| columns := [("id", ["b"; "d"]); ("text", ["bee"; "dee"])];
                 index := 2 |})
    as (ids & texts & Hids & Htexts & Hlen & _).
  - reflexivity.
  - vm_compute; reflexivity.
  - exists ids, texts. injection Hids as <-. injection Htexts as <-. auto.
Defined.

(** ** The secret loader *)

Section Secret.
Context (rt : platform).

Lemma with_open_ext {A} (file : path) (body1 body2 : nat → io A) (w : world) :
  (∀ f w1, body1 f w1 = body2 f w1) →
  with_open file body1 w = with_open file body2 w.
Proof.
  intros Hext. unfold with_open.
  destruct (open_r file w) as [[f | e] w1]; [| done]. by rewrite Hext.
Qed.

(** [get_openai_api_key] in closed form. *)
Lemma get_openai_api_key_spec (file_path : path) (w : world) :
  get_openai_api_key rt file_path w =
  (match file_text rt w file_path with
   | Return text =>
       match json_loads rt text with
       | Return document => getitem document "secret_key"
       | Raise e => Raise e
       end
   | Raise e => Raise e
   end, w).
Proof.
  unfold get_openai_api_key.
  rewrite <- (with_open_read rt file_path
                (fun text => match json_loads rt text with
                             | Return document => getitem document "secret_key"
                             | Raise e => Raise e
                             end) w).
  apply with_open_ext. intros f w1.
  unfold json_load, mbind, M_bind, bind, lift.
  destruct (read rt f w1) as [[text | e] w2]; [| done].
  by destruct (json_loads rt text).
Qed.

End Secret.

(** C4: when the file's content parses to the object with the one member
    [secret_key] of value ["abc123"], [get_openai_api_key] returns the
    string ["abc123"]. *)
Theorem get_openai_api_key_returns_secret
    (rt : platform) (w : world) (file_path : path) (text : string) :
  file_text rt w file_path = Return text →
  json_loads rt text = Return (PyDict {[ "secret_key" := PyStr "abc123" ]}) →
  get_openai_api_key rt file_path w = (Return (PyStr "abc123"), w).
Proof.
  intros Htext Hjson.
  rewrite get_openai_api_key_spec, Htext, Hjson. reflexivity.
Qed.

Lemma get_openai_api_key_returns_secret_witness :
  get_openai_api_key (posix json_docs) ["secrets.json"] sample_world =
  (Return (PyStr "abc123"), sample_world).
Proof.
  apply (get_openai_api_key_returns_secret (posix json_docs) sample_world
           ["secrets.json"] secret_json).
  - vm_compute; reflexivity.
  - vm_compute; reflexivity.
Defined.

(** C5: when the file's content parses to an object without the key
    [secret_key], [get_openai_api_key] raises [KeyError] for that key and
    returns nothing. *)
Theorem get_openai_api_key_missing_key
    (rt : platform) (w : world) (file_path : path) (text : string)
    (d : gmap string pyval) :
  file_text rt w file_path = Return text →
  json_loads rt text = Return (PyDict d) →
  d !! "secret_key" = None →
  get_openai_api_key rt file_path w = (Raise (KeyError "secret_key"), w) ∧
  ∀ v, fst (get_openai_api_key rt file_path w) ≠ Return v.
Proof.
  intros Htext Hjson Hkey.
  rewrite get_openai_api_key_spec, Htext, Hjson. simpl. rewrite Hkey. done.
Qed.

Lemma get_openai_api_key_missing_key_witness :
  get_openai_api_key (posix json_docs) ["other.json"] sample_world =
  (Raise (KeyError "secret_key"), sample_world).
Proof.
  apply (get_openai_api_key_missing_key (posix json_docs) sample_world
           ["other.json"] other_json {[ "api_key" := PyStr "abc123" ]}).
  - vm_compute; reflexivity.
  - vm_compute; reflexivity.
  - vm_compute; reflexivity.
Defined.

(** C10: when the file's content parses to a value that is not an object,
    subscripting it raises [TypeError]: [get_openai_api_key] raises that
    error, not a [KeyError], and returns nothing. *)
Theorem get_openai_api_key_not_a_mapping
    (rt : platform) (w : world) (file_path : path) (text : string)
    (document : pyval) :
  file_text rt w file_path = Return text →
  json_loads rt text = Return document →
  (∀ d, document ≠ PyDict d) →
  (∃ msg, get_openai_api_key rt file_path w = (Raise (TypeError msg), w)) ∧
  (∀ key, fst (get_openai_api_key rt file_path w) ≠ Raise (KeyError key)) ∧
  (∀ v, fst (get_openai_api_key rt file_path w) ≠ Return v).
Proof.
  intros Htext Hjson Hnot.
  rewrite get_openai_api_key_spec, Htext, Hjson.
  destruct document; simpl; try (split; [by eexists | done]).
  by destruct (Hnot d).
Qed.

Lemma get_openai_api_key_not_a_mapping_witness :
  ∃ msg, get_openai_api_key (posix json_docs) ["array.json"] sample_world =
         (Raise (TypeError msg), sample_world).
Proof.
  apply (get_openai_api_key_not_a_mapping (posix json_docs) sample_world
           ["array.json"] array_json (PyList [PyStr "abc123"])).
  - vm_compute; reflexivity.
  - vm_compute; reflexivity.
  - intros d H. discriminate H.
Defined.

(** ** File handles *)

(** C8: after [load_data] and after [get_openai_api_key], however they
    end, the table of open files is what it was before the call: every
    handle opened during the call has been closed. *)
Theorem file_handles_released
    (rt : platform) (w : world) (data_dir : path) (ext : string)
    (file_path : path) :
  handles (snd (load_data rt data_dir ext w)) = handles w ∧
  handles (snd (get_openai_api_key rt file_path w)) = handles w.
Proof. by rewrite load_data_spec, get_openai_api_key_spec. Qed.

(** ** The embedding invoker *)

(** C3: on a recording client, [embed_documents] gives the outcome of the
    client's embedding operation on the given documents and model, moves
    the client to the state that one operation leaves, and adds exactly
    one call to the record, with the given documents as [input] and the
    given model name as [model]. *)
Theorem embed_documents_forwards_once
    {S R : Type} (client : OpenAI S R) (documents : list string)
    (embedding_model : string) (s : S) (calls : list create_kwargs) :
  embed_documents documents (recording client) embedding_model (s, calls) =
  (fst (create (embeddings client)
          {| input := documents; model := embedding_model |} s),
   (snd (create (embeddings client)
           {| input := documents; model := embedding_model |} s),
    (calls ++ [{| input := documents; model := embedding_model |}])%list)).
Proof.
  unfold embed_documents, recording. simpl.
  by destruct (create (embeddings client) _ s).
Qed.

(** ** Errors *)

(** C7, as the specification words it, does not hold for a missing
    directory: [glob] yields nothing there, and [load_data] returns the
    empty table instead of raising. *)
Lemma load_data_missing_directory_returns :
  ¬ (∀ (rt : platform) (w : world) (data_dir : path) (ext : string),
       plain_ext ext = true →
       files w !! data_dir = None →
       ∃ e, fst (load_data rt data_dir ext w) = Raise e).
Proof.
  intros Hclaim.
  destruct (Hclaim (posix []) sample_world ["nowhere"] "txt" eq_refl) as [e He].
  - vm_compute; reflexivity.
  - vm_compute in He. discriminate He.
Qed.

(** C7, amended: every error that does occur reaches the caller
    unchanged and nothing is caught.  In [load_data] that is the error of
    [glob], and the error of opening or decoding the first matched entry
    that cannot be read; in [get_openai_api_key] the error of opening or
    decoding the file, of parsing its text, or of the subscript; in
    [embed_documents] the error the client raises.  A missing or
    unreadable directory raises nothing in [load_data]: the table
    returned is empty. *)
Theorem errors_reach_the_caller_unchanged
    (rt : platform) (w : world) (e : exn) :
  (∀ file_path,
     fst (open_r file_path w) = Raise e → file_text rt w file_path = Raise e) ∧
  (∀ file_path data,
     files w !! file_path = Some (RegularFile true data) →
     text_decode rt data = Raise e → file_text rt w file_path = Raise e) ∧
  (∀ data_dir ext,
     fst (glob rt data_dir ("*." +:+ ext) w) = Raise e →
     load_data rt data_dir ext w = (Raise e, w)) ∧
  (∀ data_dir ext before entry after,
     plain_ext ext = true →
     matching rt w data_dir ext = (before ++ entry :: after)%list →
     Forall (fun earlier =>
               ∃ text, file_text rt w (data_dir ++ [earlier])%list = Return text)
            before →
     file_text rt w (data_dir ++ [entry])%list = Raise e →
     load_data rt data_dir ext w = (Raise e, w)) ∧
  (∀ data_dir ext,
     plain_ext ext = true →
     (files w !! data_dir = None ∨
      ∃ entries, files w !! data_dir = Some (Directory false entries)) →
     load_data rt data_dir ext w = (Return empty_table, w)) ∧
  (∀ file_path,
     file_text rt w file_path = Raise e →
     get_openai_api_key rt file_path w = (Raise e, w)) ∧
  (∀ file_path text,
     file_text rt w file_path = Return text →
     json_loads rt text = Raise e →
     get_openai_api_key rt file_path w = (Raise e, w)) ∧
  (∀ file_path text document,
     file_text rt w file_path = Return text →
     json_loads rt text = Return document →
     getitem document "secret_key" = Raise e →
     get_openai_api_key rt file_path w = (Raise e, w)) ∧
  (∀ (S R : Type) (client : OpenAI S R) documents embedding_model (s : S),
     fst (create (embeddings client)
            {| input := documents; model := embedding_model |} s) = Raise e →
     fst (embed_documents documents client embedding_model s) = Raise e).
Proof.
  repeat split.
  - intros file_path. unfold open_r, file_text.
    destruct (files w !! file_path) as [[[] data | [] entries] |]; simpl;
      try done; by intros [= <-].
  - intros file_path data Hfile Hdecode. unfold file_text. by rewrite Hfile.
  - intros data_dir ext. rewrite load_data_spec. unfold glob.
    destruct (has_double_star ("*." +:+ ext)); simpl; [by intros [= ->] | done].
  - intros data_dir ext before entry after Hext Hmatch Hbefore Hentry.
    rewrite load_data_spec, plain_ext_pattern by done.
    unfold matched_paths. rewrite Hmatch, map_app. cbn [map].
    rewrite (read_all_first_error rt w _ _ _ e); [done | | done].
    by apply Forall_fmap.
  - intros data_dir ext Hext Hdir.
    apply load_data_no_match; [done |].
    unfold matching, scandir_names.
    by destruct Hdir as [-> | [entries ->]].
  - intros file_path Htext. by rewrite get_openai_api_key_spec, Htext.
  - intros file_path text Htext Hjson.
    by rewrite get_openai_api_key_spec, Htext, Hjson.
  - intros file_path text document Htext Hjson Hitem.
    by rewrite get_openai_api_key_spec, Htext, Hjson, Hitem.
  - intros S R client documents embedding_model s Hraise. exact Hraise.
Qed.

Lemma errors_reach_the_caller_unchanged_witness :
  load_data (posix []) ["stale"] "txt" sample_world =
    (Raise (FileNotFoundError ["stale"; "gone.txt"]), sample_world) ∧
  load_data (posix []) ["nowhere"] "txt" sample_world =
    (Return empty_table, sample_world) ∧
  get_openai_api_key (posix json_docs) ["broken.json"] sample_world =
    (Raise (JSONDecodeError "Expecting value"), sample_world) ∧
  fst (embed_documents ["a"; "b"] counting_client "" 0) =
    Raise (OtherError "BadRequestError" "you must provide a model parameter").
Proof.
  split; [| split; [| split]].
  - destruct (errors_reach_the_caller_unchanged (posix []) sample_world
                (FileNotFoundError ["stale"; "gone.txt"]))
      as (_ & _ & _ & Hload & _).
    apply (Hload ["stale"] "txt" ["one.txt"] "gone.txt" ["two.txt"]).
    + reflexivity.
    + vm_compute; reflexivity.
    + repeat constructor. exists "1". vm_compute; reflexivity.
    + vm_compute; reflexivity.
  - destruct (errors_reach_the_caller_unchanged (posix []) sample_world
                (ValueError ""))
      as (_ & _ & _ & _ & Hmissing & _).
    apply (Hmissing ["nowhere"] "txt").
    + reflexivity.
    + left. vm_compute; reflexivity.
  - destruct (errors_reach_the_caller_unchanged (posix json_docs) sample_world
                (JSONDecodeError "Expecting value"))
      as (_ & _ & _ & _ & _ & _ & Hparse & _).
    apply (Hparse ["broken.json"] "{").
    + vm_compute; reflexivity.
    + vm_compute; reflexivity.
  - destruct (errors_reach_the_caller_unchanged (posix []) sample_world
                (OtherError "BadRequestError" "you must provide a model parameter"))
      as (_ & _ & _ & _ & _ & _ & _ & _ & Hclient).
    apply (Hclient nat nat counting_client ["a"; "b"] "" 0).
    reflexivity.
Defined.

(** * Further properties *)

(** ** The stem of a name *)

(** Where the last dot of a string is. *)
Lemma rfind_from_dot_spec (s : string) (i last : Z) :
  (has_dot s = false ∧ rfind_from "." s i last = last) ∨
  (∃ before after,
     s = before +:+ String "." after ∧ has_dot after = false ∧
     rfind_from "." s i last = (i + Z.of_nat (String.length before))%Z).
Proof.
  revert i last. induction s as [| a s IH]; intros i last; [by left |].
  cbn [rfind_from].
  destruct (IH (i + 1)%Z (if Ascii.eqb a "." then i else last))
    as [[Hno Hlast] | (before & after & -> & Hafter & Hfound)].
  - destruct (Ascii.eqb_spec a ".") as [-> | Hne].
    + right. exists "", s. rewrite Hlast. split; [done | split; [done |]].
      simpl. lia.
    + left. split; [| done].
      destruct a as [[] [] [] [] [] [] [] []]; try done.
  - right. exists (String a before), after. split; [done | split; [done |]].
    rewrite Hfound. cbn [String.length]. lia.
Qed.

(** The stem is the name, or the name minus one last suffix: a dot and a
    non-empty run without dots, with something left before the dot. *)
Lemma stem_of_name_split (entry : string) :
  ∃ suffix,
    entry = stem_of_name entry +:+ suffix ∧
    (suffix = "" ∨
     ∃ after, suffix = String "." after ∧ after ≠ "" ∧ has_dot after = false ∧
              stem_of_name entry ≠ "").
Proof.
  assert (Hnil : ∀ s, s = s +:+ "").
  { induction s as [| a s IH]; [done |].
    change (String a s +:+ "") with (String a (s +:+ "")). by rewrite <- IH. }
  unfold stem_of_name, rfind.
  destruct (rfind_from_dot_spec entry 0 (-1))
    as [[_ ->] | (before & after & -> & Hafter & ->)].
  - exists "". auto.
  - rewrite length_append. cbn [String.length].
    destruct (0 <? 0 + Z.of_nat (String.length before))%Z eqn:Hpos;
      [| exists ""; auto].
    destruct (0 + Z.of_nat (String.length before) <?
              Z.of_nat (String.length before + S (String.length after)) - 1)%Z
      eqn:Hlast; [| exists ""; auto].
    cbn [andb]. rewrite Z.add_0_l, Nat2Z.id, substring_prefix.
    exists (String "." after). split; [done |]. right. exists after.
    apply Z.ltb_lt in Hpos, Hlast.
    repeat split; [| done |].
    + destruct after; [simpl in Hlast; lia | done].
    + destruct before; [simpl in Hpos; lia | done].
Qed.

(** A name whose only dot is the first character has no suffix. *)
Lemma stem_of_dot_name (rest : string) :
  has_dot rest = false → stem_of_name (String "." rest) = String "." rest.
Proof.
  intros Hrest. unfold stem_of_name, rfind. cbn [rfind_from].
  rewrite Ascii.eqb_refl, rfind_from_no_dot by done. reflexivity.
Qed.

(** A name that ends in a dot has no suffix. *)
Lemma stem_of_trailing_dot (base : string) :
  stem_of_name (base +:+ ".") = base +:+ ".".
Proof.
  unfold stem_of_name, rfind.
  rewrite rfind_from_app. cbn [rfind_from]. rewrite Ascii.eqb_refl.
  rewrite length_append. cbn [String.length].
  replace (0 + Z.of_nat (String.length base) <?
           Z.of_nat (String.length base + 1) - 1)%Z with false
    by (symmetry; apply Z.ltb_ge; lia).
  by rewrite andb_false_r.
Qed.

(** ** When [load_data] returns and when it raises *)

Section Outcomes.
Context (rt : platform) (w : world).

Lemma pattern_double_star ext :
  has_double_star ("*." +:+ ext) = has_double_star ext.
Proof. reflexivity. Qed.

Lemma read_all_readable file_paths texts :
  read_all rt w file_paths = Return texts →
  Forall (fun file_path => ∃ text, file_text rt w file_path = Return text)
         file_paths.
Proof.
  intros Hall%read_all_Forall2.
  induction Hall; constructor; eauto.
Qed.

(** A failed pass over the entries stopped at one of them, after reading
    all the earlier ones. *)
Lemma read_all_children_Raise data_dir (entries : list string) e :
  read_all rt w (map (fun entry => (data_dir ++ [entry])%list) entries) = Raise e →
  ∃ before entry after,
    entries = (before ++ entry :: after)%list ∧
    Forall (fun earlier =>
              ∃ text, file_text rt w (data_dir ++ [earlier])%list = Return text)
           before ∧
    file_text rt w (data_dir ++ [entry])%list = Raise e.
Proof.
  induction entries as [| entry rest IH]; [done |]. cbn [map read_all].
  destruct (file_text rt w (data_dir ++ [entry])%list) as [text | e'] eqn:Htext.
  - destruct (read_all rt w _) as [texts | e'] eqn:Hrest; [done |].
    intros [= ->].
    destruct (IH eq_refl) as (before & failing & after & -> & Hbefore & Hfail).
    exists (entry :: before), failing, after.
    split; [done | split; [| done]]. constructor; eauto.
  - intros [= ->]. exists [], entry, rest. by repeat split.
Qed.

End Outcomes.

(** X1: [load_data] returns a table exactly when every entry the pattern
    matches can be opened and decoded; one unreadable match and there is
    no table at all. *)
Theorem load_data_returns_iff
    (rt : platform) (w : world) (data_dir : path) (ext : string) :
  plain_ext ext = true →
  (∃ df, fst (load_data rt data_dir ext w) = Return df) ↔
  Forall (fun entry => ∃ text, file_text rt w (data_dir ++ [entry])%list = Return text)
         (matching rt w data_dir ext).
Proof.
  intros Hext. rewrite load_data_spec, plain_ext_pattern by done. cbn [fst].
  split.
  - intros [df Hdf].
    destruct (read_all rt w (matched_paths rt w data_dir ext)) as [texts |] eqn:Hall;
      [| done].
    apply read_all_readable in Hall. unfold matched_paths in Hall.
    apply (proj1 (Forall_fmap _ _ _)) in Hall. exact Hall.
  - intros Hreadable.
    destruct (read_all_Return rt w (matched_paths rt w data_dir ext)) as [texts ->].
    + unfold matched_paths. by apply Forall_fmap.
    + by eexists.
Qed.

Lemma load_data_returns_iff_witness :
  (∃ df, fst (load_data (posix []) ["data"] "txt" sample_world) = Return df) ∧
  ¬ (∃ df, fst (load_data (posix []) ["stale"] "txt" sample_world) = Return df).
Proof.
  split.
  - apply (load_data_returns_iff (posix []) sample_world ["data"] "txt" eq_refl).
    assert (matching (posix []) sample_world ["data"] "txt" = ["b.txt"; "d.txt"])
      as -> by (vm_compute; reflexivity).
    repeat constructor; eexists; vm_compute; reflexivity.
  - intros Hdf.
    apply (load_data_returns_iff (posix []) sample_world ["stale"] "txt" eq_refl)
      in Hdf.
    assert (matching (posix []) sample_world ["stale"] "txt" =
            ["one.txt"; "gone.txt"; "two.txt"]) as Hm by (vm_compute; reflexivity).
    rewrite Hm in Hdf.
    inversion Hdf as [| ? ? _ Hrest]; subst.
    inversion Hrest as [| ? ? [text Htext] _]; subst.
    vm_compute in Htext. discriminate Htext.
Defined.

(** X2: for an extension without ['/'], whatever [load_data] raises
    is either what [glob] raised or the error of opening or decoding one
    matched entry, all matched entries before it having been read; the
    [DataFrame] constructor never fails. *)
Theorem load_data_raises_only
    (rt : platform) (w : world) (data_dir : path) (ext : string) (e : exn) :
  has_sep ext = false →
  fst (load_data rt data_dir ext w) = Raise e →
  fst (glob rt data_dir ("*." +:+ ext) w) = Raise e ∨
  (∃ before entry after,
     matching rt w data_dir ext = (before ++ entry :: after)%list ∧
     Forall (fun earlier =>
               ∃ text, file_text rt w (data_dir ++ [earlier])%list = Return text)
            before ∧
     file_text rt w (data_dir ++ [entry])%list = Raise e).
Proof.
  intros _. rewrite load_data_spec. unfold glob. cbn [fst].
  destruct (has_double_star ("*." +:+ ext)); [intros [= <-]; by left |].
  destruct (read_all rt w (matched_paths rt w data_dir ext)) as [texts | e'] eqn:Hall;
    [done |].
  intros [= ->]. right. by apply read_all_children_Raise.
Qed.

Lemma load_data_raises_only_witness :
  ∃ before entry after,
    matching (posix []) sample_world ["raw"] "txt" = (before ++ entry :: after)%list ∧
    file_text (posix []) sample_world (["raw"] ++ [entry])%list =
      Raise (UnicodeDecodeError "ordinal not in range(128)").
Proof.
  destruct (load_data_raises_only (posix []) sample_world ["raw"] "txt"
              (UnicodeDecodeError "ordinal not in range(128)"))
    as [Hglob | (before & entry & after & Hm & _ & Hfail)].
  - reflexivity.
  - vm_compute; reflexivity.
  - vm_compute in Hglob. discriminate Hglob.
  - exists before, entry, after. auto.
Defined.

(** X3: [ext] goes into the pattern as it is: an extension without
    ['/'] that has ['**'] in it makes [load_data] raise [ValueError]
    before any directory is looked at or any file opened. *)
Theorem load_data_double_star
    (rt : platform) (w : world) (data_dir : path) (ext : string) :
  has_sep ext = false →
  has_double_star ext = true →
  load_data rt data_dir ext w =
  (Raise (ValueError "Invalid pattern: '**' can only be an entire path component"), w).
Proof.
  intros _ Hstar. by rewrite load_data_spec, pattern_double_star, Hstar.
Qed.

Lemma load_data_double_star_witness :
  load_data (posix []) ["nowhere"] "t**" sample_world =
  (Raise (ValueError "Invalid pattern: '**' can only be an entire path component"),
   sample_world).
Proof.
  apply (load_data_double_star (posix []) sample_world ["nowhere"] "t**");
    reflexivity.
Defined.

(** X4: for an extension of one pattern component, [load_data] looks at
    nothing but the listing of [data_dir] and the entries the pattern
    matches: two worlds that agree on those give the same outcome,
    whatever else differs. *)
Theorem load_data_reads_only_matched
    (rt : platform) (w1 w2 : world) (data_dir : path) (ext : string) :
  plain_ext ext = true →
  scandir_names w1 data_dir = scandir_names w2 data_dir →
  Forall (fun entry =>
            file_text rt w1 (data_dir ++ [entry])%list =
            file_text rt w2 (data_dir ++ [entry])%list)
         (matching rt w1 data_dir ext) →
  fst (load_data rt data_dir ext w1) = fst (load_data rt data_dir ext w2).
Proof.
  intros _ Hlist Hsame. rewrite !load_data_spec. cbn [fst].
  destruct (has_double_star ("*." +:+ ext)); [done |].
  assert (Hm : matching rt w2 data_dir ext = matching rt w1 data_dir ext)
    by (unfold matching; by rewrite Hlist).
  unfold matched_paths. rewrite Hm.
  assert (Hall : read_all rt w1 (map (fun entry => (data_dir ++ [entry])%list)
                                     (matching rt w1 data_dir ext)) =
                 read_all rt w2 (map (fun entry => (data_dir ++ [entry])%list)
                                     (matching rt w1 data_dir ext))).
  { revert Hsame. generalize (matching rt w1 data_dir ext).
    intros entries Hsame.
    induction Hsame as [| entry rest Hentry _ IH]; [done |].
    cbn [map read_all]. by rewrite Hentry, IH. }
  by rewrite Hall.
Qed.

Lemma load_data_reads_only_matched_witness :
  fst (load_data (posix []) ["data"] "txt" sample_world) =
  fst (load_data (posix []) ["data"] "txt"
         {| files := delete ["data"; "c.md"] (files sample_world);
            handles := {[ 7 := [] ]} |}).
Proof.
  apply (load_data_reads_only_matched (posix []) sample_world).
  - reflexivity.
  - vm_compute; reflexivity.
  - assert (matching (posix []) sample_world ["data"] "txt" = ["b.txt"; "d.txt"])
      as -> by (vm_compute; reflexivity).
    repeat constructor; vm_compute; reflexivity.
Defined.

(** ** The components that lead to a path *)

(** Two worlds with regular files at the same places on the way to a
    path agree on whether the path is below a file. *)
Lemma file_on_the_way_agree (w1 w2 : world) (prefix rest : path) :
  (∀ q, q `prefix_of` (prefix ++ rest)%list → q ≠ (prefix ++ rest)%list →
        is_regular (files w1 !! q) = is_regular (files w2 !! q)) →
  file_on_the_way w1 prefix rest = file_on_the_way w2 prefix rest.
Proof.
  revert prefix. induction rest as [| component rest IH]; intros prefix Hagree;
    [done |].
  cbn [file_on_the_way]. f_equal.
  - apply Hagree; [by apply prefix_app_r |].
    intros Heq%(f_equal length). rewrite length_app in Heq. simpl in Heq. lia.
  - apply IH. intros q. rewrite <- app_assoc. apply Hagree.
Qed.

Lemma no_such_file_agree (w1 w2 : world) (file : path) :
  (∀ q, q `prefix_of` file → q ≠ file →
        is_regular (files w1 !! q) = is_regular (files w2 !! q)) →
  no_such_file w1 file = no_such_file w2 file.
Proof.
  intros Hagree. unfold no_such_file, below_a_file.
  by rewrite (file_on_the_way_agree w1 w2 [] file).
Qed.

(** ** The rows of a returned table *)

Section Table.
Context (rt : platform).

(** The rows of a returned table, entry by entry. *)
Lemma load_data_rows w w' data_dir ext df :
  load_data rt data_dir ext w = (Return df, w') →
  rows df = map (row_of rt w data_dir) (matching rt w data_dir ext) ∧
  columns df = [("id", (map fst (rows df))); ("text", (map snd (rows df)))] ∧
  index df = length (matching rt w data_dir ext).
Proof.
  intros (_ & texts & Hall & ->)%load_data_Return.
  rewrite rows_of_columns. cbn [columns index].
  pose proof (read_all_length _ _ _ _ Hall) as Hlen.
  apply read_all_Forall2, rows_of_matching in Hall.
  unfold matched_paths in *. rewrite length_map in Hlen.
  split; [| split; [| done]].
  - revert Hall. generalize (matching rt w data_dir ext). clear Hlen.
    intros entries. revert texts.
    induction entries as [| entry rest IH]; intros [| text texts] Hall;
      inversion Hall as [| ? ? ? ? [Hid Htext] Hrest]; subst; try done.
    cbn [map zip zip_with] in *. f_equal; [| by apply IH].
    unfold row_of. rewrite Htext. by rewrite <- Hid.
  - rewrite fst_zip, snd_zip by (rewrite !length_map; lia). done.
Qed.

Lemma child_not_parent (data_dir : path) (entry : string) :
  data_dir ≠ (data_dir ++ [entry])%list.
Proof.
  intros Heq%(f_equal length). rewrite length_app in Heq. simpl in Heq. lia.
Qed.

Lemma relisted_file_text w data_dir entries entry :
  is_regular (files w !! data_dir) = false →
  file_text rt (relisted w data_dir entries) (data_dir ++ [entry])%list =
  file_text rt w (data_dir ++ [entry])%list.
Proof.
  intros Hdir.
  assert (Hway : no_such_file (relisted w data_dir entries) (data_dir ++ [entry])%list =
                 no_such_file w (data_dir ++ [entry])%list).
  { apply no_such_file_agree. intros q _ _. unfold relisted. cbn [files].
    destruct (decide (data_dir = q)) as [<- | Hne].
    - rewrite lookup_insert_eq. symmetry. exact Hdir.
    - by rewrite lookup_insert_ne. }
  unfold file_text. rewrite Hway. unfold relisted. cbn [files].
  by rewrite lookup_insert_ne by apply child_not_parent.
Qed.

Lemma relisted_matching w data_dir entries ext :
  matching rt (relisted w data_dir entries) data_dir ext =
  filter (fun entry => compile_pattern rt ("*." +:+ ext) entry = true) entries.
Proof.
  unfold matching, scandir_names, relisted. cbn [files].
  by rewrite lookup_insert_eq.
Qed.

(** X5: the rows do not depend on the order in which the directory lists
    its entries, only their order does: listing the same entries in
    another order gives a table with the same rows, permuted. *)
Theorem load_data_rows_permute
    (w : world) (data_dir : path) (ext : string)
    (entries entries' : list string) (df : DataFrame) :
  files w !! data_dir = Some (Directory true entries) →
  entries' ≡ₚ entries →
  load_data rt data_dir ext w = (Return df, w) →
  ∃ df',
    load_data rt data_dir ext (relisted w data_dir entries') =
      (Return df', relisted w data_dir entries') ∧
    rows df' ≡ₚ rows df ∧
    index df' = index df.
Proof.
  intros Hdir Hperm Hload.
  pose proof (load_data_rows _ _ _ _ _ Hload) as (Hrows & _ & Hindex).
  assert (Hm : matching rt w data_dir ext =
               filter (fun entry => compile_pattern rt ("*." +:+ ext) entry = true)
                      entries)
    by (unfold matching, scandir_names; by rewrite Hdir).
  pose proof (load_data_Return _ _ _ _ _ _ Hload) as (_ & texts & Hall & _).
  assert (Hstar : has_double_star ("*." +:+ ext) = false).
  { rewrite load_data_spec in Hload.
    by destruct (has_double_star ("*." +:+ ext)). }
  set (w2 := relisted w data_dir entries').
  destruct (read_all_Return rt w2 (matched_paths rt w2 data_dir ext))
    as [texts' Hall'].
  { unfold matched_paths. apply Forall_fmap.
    apply read_all_readable in Hall. unfold matched_paths in Hall.
    apply (proj1 (Forall_fmap _ _ _)) in Hall.
    rewrite Forall_forall in Hall |- *. intros entry Hin. cbn.
    unfold w2. rewrite relisted_file_text by (by rewrite Hdir). apply Hall.
    unfold w2 in Hin. rewrite relisted_matching in Hin.
    rewrite Hm. by rewrite <- Hperm. }
  eexists. split; [| split].
  - rewrite load_data_spec, Hstar, Hall'. reflexivity.
  - assert (Hload2 : load_data rt data_dir ext w2 =
                     (Return {| columns := [("id", map stem (matched_paths rt w2 data_dir ext));
                                            ("text", texts')];
                                index := length (matching rt w2 data_dir ext) |}, w2))
      by (by rewrite load_data_spec, Hstar, Hall').
    apply load_data_rows in Hload2 as (-> & _ & _).
    rewrite Hrows, Hm. unfold w2. rewrite relisted_matching.
    rewrite (map_ext (row_of rt (relisted w data_dir entries') data_dir)
                     (row_of rt w data_dir)).
    + by rewrite Hperm.
    + intros entry. unfold row_of.
      by rewrite relisted_file_text by (by rewrite Hdir).
  - cbn [index]. rewrite Hindex, Hm. unfold w2.
    rewrite relisted_matching. by rewrite Hperm.
Qed.

End Table.

Lemma load_data_rows_permute_witness :
  ∃ df',
    fst (load_data (posix []) ["data"] "txt"
           (relisted sample_world ["data"] ["d.txt"; "c.md"; "a.tar.gz"; "b.txt"])) =
      Return df' ∧
    rows df' ≡ₚ [("b", "bee"); ("d", "dee")].
Proof.
  destruct (load_data_rows_permute (posix []) sample_world ["data"] "txt"
              ["b.txt"; "a.tar.gz"; "c.md"; "d.txt"]
              ["d.txt"; "c.md"; "a.tar.gz"; "b.txt"]
              {| columns := [("id", ["b"; "d"]); ("text", ["bee"; "dee"])];
                 index := 2 |})
    as (df' & Hrun & Hrows & _).
  - vm_compute; reflexivity.
  - apply (reverse_Permutation ["b.txt"; "a.tar.gz"; "c.md"; "d.txt"]).
  - vm_compute; reflexivity.
  - exists df'. rewrite Hrun. auto.
Defined.

(** X6: for an extension of one pattern component, the [id] of a row is
    always a prefix of the entry's name; what is cut off is nothing, or
    one last suffix made of a dot and a non-empty run without dots, and
    then the [id] is not empty. *)
Theorem load_data_id_is_prefix
    (rt : platform) (w w' : world) (data_dir : path) (ext : string)
    (df : DataFrame) :
  plain_ext ext = true →
  load_data rt data_dir ext w = (Return df, w') →
  Forall2 (fun entry row =>
             ∃ suffix,
               entry = row.1 +:+ suffix ∧
               (suffix = "" ∨
                ∃ after, suffix = String "." after ∧ after ≠ "" ∧
                         has_dot after = false ∧ row.1 ≠ ""))
          (matching rt w data_dir ext) (rows df).
Proof.
  intros _ (-> & _ & _)%load_data_rows.
  apply Forall2_fmap_r, Forall_Forall2_diag, Forall_forall.
  intros entry _. apply stem_of_name_split.
Qed.

Lemma load_data_id_is_prefix_witness :
  Forall2 (fun entry row => ∃ suffix, entry = row.1 +:+ suffix)
          ["a.tar.gz"] [("a.tar", "archive")].
Proof.
  pose proof (load_data_id_is_prefix (posix []) sample_world sample_world
                ["data"] "tar.gz"
                {| columns := [("id", ["a.tar"]); ("text", ["archive"])];
                   index := 1 |}) as Hrows.
  assert (matching (posix []) sample_world ["data"] "tar.gz" = ["a.tar.gz"])
    as Hm by (vm_compute; reflexivity).
  rewrite Hm in Hrows.
  eapply Forall2_impl;
    [apply Hrows; [reflexivity | vm_compute; reflexivity] |].
  intros entry row (suffix & Hsplit & _). eauto.
Defined.

(** X7: for an extension of one pattern component, an entry whose only
    dot is its first character, and an entry that ends in a dot, keep
    their whole name as [id]: [.txt] is loaded under the id [.txt], and
    with an empty [ext] nothing is stripped. *)
Theorem load_data_dot_names_keep_name
    (rt : platform) (w w' : world) (data_dir : path) (ext : string)
    (df : DataFrame) :
  plain_ext ext = true →
  load_data rt data_dir ext w = (Return df, w') →
  Forall2 (fun entry row =>
             (∀ rest, entry = String "." rest → has_dot rest = false →
                      row.1 = entry) ∧
             (∀ base, entry = base +:+ "." → row.1 = entry))
          (matching rt w data_dir ext) (rows df).
Proof.
  intros _ (-> & _ & _)%load_data_rows.
  apply Forall2_fmap_r, Forall_Forall2_diag, Forall_forall.
  intros entry _. cbn [row_of fst]. split.
  - intros rest -> Hrest. by apply stem_of_dot_name.
  - intros base ->. apply stem_of_trailing_dot.
Qed.

Lemma load_data_dot_names_keep_name_witness :
  Forall2 (fun entry (row : string * string) => entry = ".txt" → row.1 = ".txt")
          (matching (posix []) dotted_world ["dots"] "txt")
          (rows {| columns := [("id", [".txt"; ".txt"; "plain"]);
                               ("text", ["hidden"; "twice"; "plain"])];
                   index := 3 |}).
Proof.
  eapply Forall2_impl.
  - apply (load_data_dot_names_keep_name (posix []) dotted_world dotted_world
             ["dots"] "txt").
    + reflexivity.
    + vm_compute; reflexivity.
  - intros entry row [Hdot _] ->. by apply (Hdot "txt").
Defined.

(** X8: when [ext] is one pattern component, non-empty and without a
    dot, the directory lists no name twice, and every matched name is a
    non-empty base followed by [.ext], no two rows of the table share an
    [id]. *)
Theorem load_data_ids_unique
    (rt : platform) (w w' : world) (data_dir : path) (ext : string)
    (df : DataFrame) :
  plain_ext ext = true →
  load_data rt data_dir ext w = (Return df, w') →
  NoDup (scandir_names w data_dir) →
  ext ≠ "" →
  has_dot ext = false →
  Forall (fun entry => ∃ base, base ≠ "" ∧ entry = base +:+ "." +:+ ext)
         (matching rt w data_dir ext) →
  ∃ ids, column df "id" = Some ids ∧ NoDup ids.
Proof.
  intros _ (_ & texts & _ & ->)%load_data_Return Hnodup Hext Hdot Hform.
  eexists. split; [reflexivity |].
  unfold matched_paths. rewrite map_map.
  apply NoDup_fmap_2_strong; [| by apply NoDup_filter].
  rewrite Forall_forall in Hform.
  intros entry1 entry2 [base1 [Hbase1 ->]]%Hform [base2 [Hbase2 ->]]%Hform.
  rewrite !stem_child, !stem_of_name_ext by done. by intros ->.
Qed.

Lemma load_data_ids_unique_witness :
  NoDup ["b"; "d"].
Proof.
  destruct (load_data_ids_unique (posix []) sample_world sample_world
              ["data"] "txt"
              {| columns := [("id", ["b"; "d"]); ("text", ["bee"; "dee"])];
                 index := 2 |})
    as (ids & Hids & Hnodup).
  - reflexivity.
  - vm_compute; reflexivity.
  - assert (scandir_names sample_world ["data"] =
            ["b.txt"; "a.tar.gz"; "c.md"; "d.txt"]) as -> by (vm_compute; reflexivity).
    apply (bool_decide_unpack _). vm_compute; reflexivity.
  - discriminate.
  - reflexivity.
  - assert (matching (posix []) sample_world ["data"] "txt" = ["b.txt"; "d.txt"])
      as -> by (vm_compute; reflexivity).
    repeat constructor; [by exists "b" | by exists "d"].
  - injection Hids as <-. exact Hnodup.
Defined.

(** X9: for an extension of one pattern component, a returned table has
    exactly the two columns [id] and [text], in that order, each as long
    as the index, and the index counts the entries the pattern matched. *)
Theorem load_data_table_shape
    (rt : platform) (w w' : world) (data_dir : path) (ext : string)
    (df : DataFrame) :
  plain_ext ext = true →
  load_data rt data_dir ext w = (Return df, w') →
  ∃ ids texts,
    columns df = [("id", ids); ("text", texts)] ∧
    length ids = index df ∧
    length texts = index df ∧
    index df = length (matching rt w data_dir ext).
Proof.
  intros _ (_ & texts & Hall%read_all_length & ->)%load_data_Return.
  do 2 eexists. split; [reflexivity |]. cbn [index].
  unfold matched_paths in *. rewrite !length_map in *. auto.
Qed.

Lemma load_data_table_shape_witness :
  ∃ ids texts,
    [("id", ["b"; "d"]); ("text", ["bee"; "dee"])] = [("id", ids); ("text", texts)] ∧
    length ids = 2 ∧ length texts = 2.
Proof.
  destruct (load_data_table_shape (posix []) sample_world sample_world
              ["data"] "txt"
              {| columns := [("id", ["b"; "d"]); ("text", ["bee"; "dee"])];
                 index := 2 |})
    as (ids & texts & Hcols & Hids & Htexts & _).
  - reflexivity.
  - vm_compute; reflexivity.
  - exists ids, texts. auto.
Defined.

(** ** Matching a plain extension *)

Lemma has_magic_cons (c : ascii) (pat : string) :
  has_magic (String c pat) = false →
  c ≠ "*"%char ∧ c ≠ "?"%char ∧ has_magic pat = false.
Proof.
  destruct c as [[] [] [] [] [] [] [] []]; cbn [has_magic]; intros H;
    try discriminate H; by repeat split.
Qed.

Lemma wildcard_plain_char (c : ascii) (pat s : string) :
  c ≠ "*"%char → c ≠ "?"%char →
  wildcard (String c pat) s =
  match s with
  | EmptyString => false
  | String a s' => Ascii.eqb a c && wildcard pat s'
  end.
Proof.
  intros Hstar Hany.
  destruct c as [[] [] [] [] [] [] [] []]; try reflexivity; congruence.
Qed.

Lemma wildcard_star_unfold (pat s : string) :
  wildcard (String "*" pat) s =
  wildcard pat s ||
  match s with
  | EmptyString => false
  | String _ s' => wildcard (String "*" pat) s'
  end.
Proof. by destruct s. Qed.

(** A pattern without wildcard characters matches itself only. *)
Lemma wildcard_literal (pat s : string) :
  has_magic pat = false → wildcard pat s = true ↔ s = pat.
Proof.
  revert s. induction pat as [| c pat IH]; intros s Hmagic.
  - destruct s; simpl; split; congruence.
  - apply has_magic_cons in Hmagic as (Hstar & Hany & Hrest).
    rewrite wildcard_plain_char by done.
    destruct s as [| a s]; [split; congruence |].
    rewrite andb_true_iff, IH by done.
    destruct (Ascii.eqb_spec a c) as [-> | Hne]; split.
    + by intros [_ ->].
    + by intros [= ->].
    + by intros [? _].
    + intros [= -> _]. done.
Qed.

(** A leading ['*'] lets the rest of the pattern match any tail. *)
Lemma wildcard_star (pat s : string) :
  wildcard (String "*" pat) s = true ↔
  ∃ before after, s = before +:+ after ∧ wildcard pat after = true.
Proof.
  induction s as [| a s IH]; rewrite wildcard_star_unfold, orb_true_iff.
  - split.
    + intros [H | H]; [| done]. by exists "", "".
    + intros (before & after & Hs & H). left.
      destruct before as [| b before]; [| discriminate Hs].
      change ("" +:+ after) with after in Hs. by subst.
  - rewrite IH. split.
    + intros [H | (before & after & -> & H)].
      * by exists "", (String a s).
      * by exists (String a before), after.
    + intros (before & after & Hs & H).
      destruct before as [| b before].
      * left. change ("" +:+ after) with after in Hs. by subst.
      * right. change (String b before +:+ after)
          with (String b (before +:+ after)) in Hs.
        injection Hs as -> ->. by exists before, after.
Qed.

Lemma strip_suffix_app (suffix base : string) :
  strip_suffix suffix (base +:+ suffix) = Some base.
Proof.
  induction base as [| c base IH].
  - change ("" +:+ suffix) with suffix.
    destruct suffix; cbn [strip_suffix]; by rewrite String.eqb_refl.
  - change (String c base +:+ suffix) with (String c (base +:+ suffix)).
    cbn [strip_suffix].
    destruct (String.eqb_spec (String c (base +:+ suffix)) suffix) as [Heq | _].
    + apply (f_equal String.length) in Heq. cbn [String.length] in Heq.
      rewrite length_append in Heq. lia.
    + by rewrite IH.
Qed.

(** X10: on any platform whose matcher decides the pattern of [ext] as
    [fnmatch] does, for an extension of one pattern component without
    ['*'], ['?'] and ['['], the rows of a returned table are those of
    exactly the entries of the directory whose name ends in [.ext], in
    directory order; the comparison is case-sensitive and a name that
    begins with a dot is not skipped. *)
Theorem load_data_plain_ext_rows
    (rt : platform) (w w' : world) (data_dir : path)
    (ext : string) (df : DataFrame) :
  plain_ext ext = true →
  has_magic ext = false →
  (∀ entry, compile_pattern rt ("*." +:+ ext) entry =
            wildcard ("*." +:+ ext) entry) →
  load_data rt data_dir ext w = (Return df, w') →
  rows df =
  map (row_of rt w data_dir)
      (filter (fun entry => is_Some (name_without_ext ext entry))
              (scandir_names w data_dir)).
Proof.
  intros _ Hmagic Hfnmatch (-> & _ & _)%load_data_rows. f_equal.
  unfold matching. apply list_filter_iff. intros entry. rewrite Hfnmatch.
  change ("*." +:+ ext) with (String "*" (String "." ext)).
  rewrite wildcard_star. unfold name_without_ext.
  change ("." +:+ ext) with (String "." ext). split.
  - intros (before & after & -> & Hlit).
    apply wildcard_literal in Hlit as ->; [| done].
    rewrite strip_suffix_app. by eexists.
  - intros [base Hbase%strip_suffix_Some].
    exists base, (String "." ext). split; [done |].
    by apply wildcard_literal.
Qed.

Lemma load_data_plain_ext_rows_witness :
  rows {| columns := [("id", [".txt"; ".txt"; "plain"]);
                      ("text", ["hidden"; "twice"; "plain"])];
          index := 3 |} =
  map (row_of (posix []) dotted_world ["dots"])
      (filter (fun entry => is_Some (name_without_ext "txt" entry))
              (scandir_names dotted_world ["dots"])).
Proof.
  apply (load_data_plain_ext_rows (posix []) dotted_world dotted_world
           ["dots"] "txt").
  - reflexivity.
  - reflexivity.
  - reflexivity.
  - vm_compute; reflexivity.
Defined.

(** ** More on the secret loader *)

(** X11: [get_openai_api_key] returns a value exactly when the file can
    be read, its text parses to an object, and the object has the key
    [secret_key]; what is returned is the value under that key, whatever
    its type and whatever else the object holds. *)
Theorem get_openai_api_key_returns_iff
    (rt : platform) (w : world) (file_path : path) (v : pyval) :
  fst (get_openai_api_key rt file_path w) = Return v ↔
  ∃ text d,
    file_text rt w file_path = Return text ∧
    json_loads rt text = Return (PyDict d) ∧
    d !! "secret_key" = Some v.
Proof.
  rewrite get_openai_api_key_spec. cbn [fst]. split.
  - destruct (file_text rt w file_path) as [text |]; [| done].
    destruct (json_loads rt text) as [[| | | | | | d] |] eqn:Hjson;
      cbn [getitem]; try done.
    destruct (d !! "secret_key") as [v' |] eqn:Hkey; [| done].
    intros [= ->]. by exists text, d.
  - intros (text & d & -> & -> & Hkey). cbn [getitem]. by rewrite Hkey.
Qed.

(** X12: whatever [get_openai_api_key] raises is the error of opening or
    decoding the file, or of parsing its text, or of the subscript on the
    parsed value, in that order of precedence. *)
Theorem get_openai_api_key_raises_only
    (rt : platform) (w : world) (file_path : path) (e : exn) :
  fst (get_openai_api_key rt file_path w) = Raise e →
  file_text rt w file_path = Raise e ∨
  (∃ text, file_text rt w file_path = Return text ∧
           json_loads rt text = Raise e) ∨
  (∃ text document,
     file_text rt w file_path = Return text ∧
     json_loads rt text = Return document ∧
     getitem document "secret_key" = Raise e).
Proof.
  rewrite get_openai_api_key_spec. cbn [fst].
  destruct (file_text rt w file_path) as [text |]; [| intros [= ->]; by left].
  destruct (json_loads rt text) as [document |] eqn:Hjson.
  - intros Hitem. right. right. eauto.
  - intros [= ->]. right. left. eauto.
Qed.

Lemma get_openai_api_key_raises_only_witness :
  ∃ text, file_text (posix json_docs) sample_world ["broken.json"] = Return text ∧
          json_loads (posix json_docs) text = Raise (JSONDecodeError "Expecting value").
Proof.
  destruct (get_openai_api_key_raises_only (posix json_docs) sample_world
              ["broken.json"] (JSONDecodeError "Expecting value"))
    as [Hfile | [Hparse | (text & document & _ & Hjson & _)]].
  - vm_compute; reflexivity.
  - vm_compute in Hfile. discriminate Hfile.
  - exact Hparse.
  - exists "{". split; vm_compute; reflexivity.
Defined.

(** X13: what [get_openai_api_key] raises when the file cannot be
    opened: [FileNotFoundError] for a path that has no node,
    [NotADirectoryError] when a regular file stands on the way to it,
    [IsADirectoryError] for a directory that may be read,
    [PermissionError] for a directory or a file that may not; nothing is
    parsed and the world is left as it was. *)
Theorem get_openai_api_key_open_errors
    (rt : platform) (w : world) (file_path : path) :
  (files w !! file_path = None → below_a_file w file_path = false →
   get_openai_api_key rt file_path w = (Raise (FileNotFoundError file_path), w)) ∧
  (files w !! file_path = None → below_a_file w file_path = true →
   get_openai_api_key rt file_path w = (Raise (NotADirectoryError file_path), w)) ∧
  (∀ entries,
     files w !! file_path = Some (Directory true entries) →
     get_openai_api_key rt file_path w = (Raise (IsADirectoryError file_path), w)) ∧
  (∀ entries,
     files w !! file_path = Some (Directory false entries) →
     get_openai_api_key rt file_path w = (Raise (PermissionError file_path), w)) ∧
  (∀ data,
     files w !! file_path = Some (RegularFile false data) →
     get_openai_api_key rt file_path w = (Raise (PermissionError file_path), w)).
Proof.
  rewrite get_openai_api_key_spec. unfold file_text, no_such_file.
  split; [| split; [| split; [| split]]].
  - by intros -> ->.
  - by intros -> ->.
  - by intros entries ->.
  - by intros entries ->.
  - by intros data ->.
Qed.

Lemma get_openai_api_key_open_errors_witness :
  get_openai_api_key (posix json_docs) ["missing.json"] sample_world =
    (Raise (FileNotFoundError ["missing.json"]), sample_world) ∧
  get_openai_api_key (posix json_docs) ["secrets.json"; "key"] sample_world =
    (Raise (NotADirectoryError ["secrets.json"; "key"]), sample_world) ∧
  get_openai_api_key (posix json_docs) ["data"] sample_world =
    (Raise (IsADirectoryError ["data"]), sample_world).
Proof.
  split; [| split].
  - apply (get_openai_api_key_open_errors (posix json_docs) sample_world
             ["missing.json"]); vm_compute; reflexivity.
  - destruct (get_openai_api_key_open_errors (posix json_docs) sample_world
                ["secrets.json"; "key"]) as (_ & Hbelow & _).
    apply Hbelow; vm_compute; reflexivity.
  - destruct (get_openai_api_key_open_errors (posix json_docs) sample_world
                ["data"]) as (_ & _ & Hdir & _).
    apply (Hdir ["b.txt"; "a.tar.gz"; "c.md"; "d.txt"]).
    vm_compute; reflexivity.
Defined.

(** X14: [get_openai_api_key] looks at nothing but [file_path] and the
    components that lead to it: two worlds with the same nodes there
    give the same outcome, whatever other files and open handles they
    hold. *)
Theorem get_openai_api_key_reads_only_its_file
    (rt : platform) (w1 w2 : world) (file_path : path) :
  (∀ q, q `prefix_of` file_path → files w1 !! q = files w2 !! q) →
  fst (get_openai_api_key rt file_path w1) =
  fst (get_openai_api_key rt file_path w2).
Proof.
  intros Hsame. rewrite !get_openai_api_key_spec. cbn [fst].
  assert (Hfile : files w1 !! file_path = files w2 !! file_path)
    by (by apply Hsame).
  unfold file_text.
  rewrite (no_such_file_agree w1 w2 file_path)
    by (intros q Hq _; f_equal; by apply Hsame).
  by rewrite Hfile.
Qed.

Lemma get_openai_api_key_reads_only_its_file_witness :
  fst (get_openai_api_key (posix json_docs) ["secrets.json"] sample_world) =
  fst (get_openai_api_key (posix json_docs) ["secrets.json"]
         {| files := delete ["data"] (files sample_world);
            handles := {[ 0 := [] ]} |}).
Proof.
  apply (get_openai_api_key_reads_only_its_file (posix json_docs) sample_world).
  intros q [k Hk].
  destruct q as [| c [| c' q]].
  - vm_compute; reflexivity.
  - injection Hk as <- _. vm_compute; reflexivity.
  - discriminate Hk.
Defined.

(** ** Calls in sequence *)

(** X15: the calls do not interfere.  Reading the key and then loading
    the corpus gives each call the outcome it has on its own, the first
    error wins, and the world is left as it was. *)
Theorem get_key_then_load_data
    (rt : platform) (w : world) (file_path data_dir : path) (ext : string) :
  (key ← get_openai_api_key rt file_path;
   df ← load_data rt data_dir ext;
   mret (key, df)) w =
  (match fst (get_openai_api_key rt file_path w) with
   | Raise e => Raise e
   | Return key =>
       match fst (load_data rt data_dir ext w) with
       | Raise e => Raise e
       | Return df => Return (key, df)
       end
   end, w).
Proof.
  unfold mbind, M_bind, bind.
  pose proof (get_openai_api_key_spec rt file_path w) as Hkey.
  destruct (get_openai_api_key rt file_path w) as [[key | e] w1];
    injection Hkey as _ ->; [| done].
  pose proof (load_data_spec rt data_dir ext w) as Hload.
  destruct (load_data rt data_dir ext w) as [[df | e] w2];
    injection Hload as _ ->; done.
Qed.

(** X16: two invocations of [embed_documents] on a recording client are
    two calls of the client, recorded in order, the second from the
    state the first left; when the first raises, the second is never
    made and the record holds the one call. *)
Theorem embed_documents_twice
    {S R : Type} (client : OpenAI S R) (documents1 documents2 : list string)
    (model1 model2 : string) (s : S) (calls : list create_kwargs) :
  (r1 ← embed_documents documents1 (recording client) model1;
   r2 ← embed_documents documents2 (recording client) model2;
   mret (r1, r2)) (s, calls) =
  match create (embeddings client) {| input := documents1; model := model1 |} s with
  | (Raise e, s1) =>
      (Raise e, (s1, (calls ++ [{| input := documents1; model := model1 |}])%list))
  | (Return r1, s1) =>
      match create (embeddings client) {| input := documents2; model := model2 |} s1 with
      | (Raise e, s2) =>
          (Raise e, (s2, (calls ++ [{| input := documents1; model := model1 |};
                                   {| input := documents2; model := model2 |}])%list))
      | (Return r2, s2) =>
          (Return (r1, r2),
           (s2, (calls ++ [{| input := documents1; model := model1 |};
                           {| input := documents2; model := model2 |}])%list))
      end
  end.
Proof.
  unfold mbind, M_bind, bind, embed_documents, recording. cbn.
  destruct (create (embeddings client) _ s) as [[r1 | e] s1]; [| done].
  destruct (create (embeddings client) _ s1) as [[r2 | e] s2];
    by rewrite <- app_assoc.
Qed.
